(** * Birthday notification pipeline of presently-backend

    A shallow embedding of [src/modules/notifications/notificationService.ts]:

    - [getApproachingBirthdays], the aggregation that derives which
      (user, friend) pairs are due a birthday notification;
    - [sendExpoNotifications], which turns the pairs into push messages,
      submits them in chunks and caches the tickets;
    - [handleExpoReceipts], which reads the cached tickets back and polls
      the push service for receipts.

    Instants are milliseconds since the Unix epoch, as in a JavaScript
    [Date].  The MongoDB date operators, the Expo SDK and [JSON] are
    libraries of the program; they are modelled in their own modules. *)

From stdpp Require Import gmap strings list fin_maps pretty.
From Stdlib Require Import ZArith Lia Ascii String.

Set Warnings "-register-all".

Open Scope Z_scope.

(** ** Dates *)

Module DateTime.

(** A [Date] is the number of milliseconds since 1970-01-01T00:00Z. *)
Definition Date := Z.

Definition msPerHour : Z := 3600000.
Definition msPerMinute : Z := 60000.
Definition msPerDay : Z := 86400000.

(** A time zone is a fixed offset from UTC, in minutes east of
    Greenwich (MongoDB's [+hh:mm] form).  Zones whose offset changes
    during the year are not covered. *)
Record TimeZone := { utcOffset : Z }.

Definition UTC : TimeZone := {| utcOffset := 0 |}.

(** Wall-clock reading of an instant in a zone, in milliseconds. *)
Definition toLocal (tz : TimeZone) (t : Date) : Z :=
  t + utcOffset tz * msPerMinute.

(** Number of days from 1970-01-01 to the civil date [y]-[m]-[d] of the
    proleptic Gregorian calendar.  The day is added linearly, so a day
    past the end of the month carries into the next month, as
    [$dateFromParts] does. *)
Definition daysFromCivil (y m d : Z) : Z :=
  let y' := if m <=? 2 then y - 1 else y in
  let era := y' / 400 in
  let yoe := y' - era * 400 in
  let mp := if m <=? 2 then m + 9 else m - 3 in
  let doy := (153 * mp + 2) / 5 + d - 1 in
  let doe := yoe * 365 + yoe / 4 - yoe / 100 + doy in
  era * 146097 + doe - 719468.

(** The civil date (year, month, day) of a day number. *)
Definition civilFromDays (z : Z) : Z * Z * Z :=
  let z' := z + 719468 in
  let era := z' / 146097 in
  let doe := z' - era * 146097 in
  let yoe := (doe - doe / 1460 + doe / 36524 - doe / 146096) / 365 in
  let doy := doe - (365 * yoe + yoe / 4 - yoe / 100) in
  let mp := (5 * doy + 2) / 153 in
  let d := doy - (153 * mp + 2) / 5 + 1 in
  let m := if mp <? 10 then mp + 3 else mp - 9 in
  (if m <=? 2 then yoe + era * 400 + 1 else yoe + era * 400, m, d).

Definition isLeapYear (y : Z) : bool :=
  ((y mod 4 =? 0) && negb (y mod 100 =? 0)) || (y mod 400 =? 0).

Definition daysInMonth (y m : Z) : Z :=
  if m =? 2 then (if isLeapYear y then 29 else 28)
  else if (m =? 4) || (m =? 6) || (m =? 9) || (m =? 11) then 30
  else 31.

(** [$year], [$month] and [$dayOfMonth] without a [timezone] argument
    read the date in UTC. *)
Definition year (t : Date) : Z := (civilFromDays (t / msPerDay)).1.1.
Definition month (t : Date) : Z := (civilFromDays (t / msPerDay)).1.2.
Definition dayOfMonth (t : Date) : Z := (civilFromDays (t / msPerDay)).2.

(** Milliseconds elapsed since the last midnight of the zone. *)
Definition timeOfDay (tz : TimeZone) (t : Date) : Z :=
  toLocal tz t mod msPerDay.

(** [$dateFromParts] with [year], [month], [day] and [timezone]: the
    hour, minute, second and millisecond default to zero, so the result
    is the instant at which the zone's clock reads 00:00 on that day. *)
Definition dateFromParts (y m d : Z) (tz : TimeZone) : Date :=
  daysFromCivil y m d * msPerDay - utcOffset tz * msPerMinute.

(** [$dateDiff] with [unit: 'hour']: the number of hour boundaries of
    the zone's clock that lie between the two instants. *)
Definition dateDiffHour (startDate endDate : Date) (tz : TimeZone) : Z :=
  toLocal tz endDate / msPerHour - toLocal tz startDate / msPerHour.

End DateTime.

Import DateTime.

(** ** JSON *)

Module JSON.

(** The values [JSON.parse] can produce.  A number keeps the decimal
    it was written as, [mantissa * 10 ^ exponent]; rounding to a double
    is not modelled.  An object keeps its members in source order, and
    a later member with the same key shadows an earlier one.  Strings
    are sequences of bytes. *)
Inductive value :=
| JNull
| JBool (b : bool)
| JNumber (mantissa exponent : Z)
| JString (s : string)
| JArray (items : list value)
| JObject (members : list (string * value)).

Definition hexDigit (n : N) : ascii :=
  ascii_of_N (if (n <? 10)%N then 48 + n else 87 + n).

(** The escape [JSON.stringify] writes for one character. *)
Definition escapeChar (c : ascii) : string :=
  let n := N_of_ascii c in
  if (n =? 34)%N then String "\" (String c EmptyString)
  else if (n =? 92)%N then "\\"
  else if (n =? 8)%N then "\b"
  else if (n =? 9)%N then "\t"
  else if (n =? 10)%N then "\n"
  else if (n =? 12)%N then "\f"
  else if (n =? 13)%N then "\r"
  else if (n <? 32)%N then
    "\u00" +:+ String (hexDigit (n / 16))
                 (String (hexDigit (n mod 16)) EmptyString)
  else String c EmptyString.

Fixpoint escape (s : string) : string :=
  match s with
  | EmptyString => EmptyString
  | String c r => escapeChar c +:+ escape r
  end.

Definition dquote : ascii := ascii_of_N 34.

Definition quote (s : string) : string :=
  String dquote (escape s +:+ String dquote EmptyString).

(** [JSON.stringify] without indentation. *)
Fixpoint stringify (v : value) : string :=
  match v with
  | JNull => "null"
  | JBool true => "true"
  | JBool false => "false"
  | JNumber m e => if e =? 0 then pretty m else pretty m +:+ "e" +:+ pretty e
  | JString s => quote s
  | JArray items =>
      "[" +:+ String.concat ","
                ((fix each l := match l with
                                | [] => []
                                | x :: l => stringify x :: each l
                                end) items) +:+ "]"
  | JObject members =>
      "{" +:+ String.concat ","
                ((fix each l := match l with
                                | [] => []
                                | (k, x) :: l =>
                                    (quote k +:+ ":" +:+ stringify x) :: each l
                                end) members) +:+ "}"
  end.

(** *** Parsing *)

Definition isWhitespace (c : ascii) : bool :=
  let n := N_of_ascii c in
  ((n =? 32) || (n =? 9) || (n =? 10) || (n =? 13))%N.

Fixpoint skipWhitespace (s : string) : string :=
  match s with
  | String c r => if isWhitespace c then skipWhitespace r else s
  | EmptyString => s
  end.

(** [expect lit s] removes the literal [lit] from the front of [s]. *)
Fixpoint expect (lit s : string) : option string :=
  match lit, s with
  | EmptyString, _ => Some s
  | String c lit', String d r => if Ascii.eqb c d then expect lit' r else None
  | String _ _, EmptyString => None
  end.

Definition digitValue (c : ascii) : option Z :=
  let n := N_of_ascii c in
  if ((48 <=? n) && (n <=? 57))%N then Some (Z.of_N (n - 48)) else None.

Definition hexValue (c : ascii) : option N :=
  let n := N_of_ascii c in
  if ((48 <=? n) && (n <=? 57))%N then Some (n - 48)%N
  else if ((65 <=? n) && (n <=? 70))%N then Some (n - 55)%N
  else if ((97 <=? n) && (n <=? 102))%N then Some (n - 87)%N
  else None.

(** A maximal run of decimal digits: the number read on top of [acc],
    how many digits were read, and the rest of the text. *)
Fixpoint digits (s : string) (acc count : Z) : Z * Z * string :=
  match s with
  | String c r =>
      match digitValue c with
      | Some d => digits r (10 * acc + d) (count + 1)
      | None => (acc, count, s)
      end
  | EmptyString => (acc, count, s)
  end.

Definition parseFraction (int : Z) (s : string) : option (Z * Z * string) :=
  match s with
  | String "."%char r =>
      let '(m, k, r') := digits r int 0 in
      if k =? 0 then None else Some (m, k, r')
  | _ => Some (int, 0, s)
  end.

Definition parseExponent (s : string) : option (Z * string) :=
  match s with
  | String c r =>
      if Ascii.eqb c "e" || Ascii.eqb c "E" then
        let '(sign, r1) :=
          match r with
          | String "+"%char r' => (1, r')
          | String "-"%char r' => (-1, r')
          | _ => (1, r)
          end in
        let '(e, k, r2) := digits r1 0 0 in
        if k =? 0 then None else Some (sign * e, r2)
      else Some (0, s)
  | EmptyString => Some (0, s)
  end.

Definition parseNumber (s : string) : option (value * string) :=
  let '(negative, s1) :=
    match s with
    | String "-"%char r => (true, r)
    | _ => (false, s)
    end in
  match s1 with
  | String c r =>
      d ← digitValue c;
      let '(int, _, s2) := if d =? 0 then (0, 1, r) else digits s1 0 0 in
      '(m, k, s3) ← parseFraction int s2;
      '(e, s4) ← parseExponent s3;
      Some (JNumber (if negative : bool then - m else m) (e - k), s4)
  | EmptyString => None
  end.

(** The bytes that stand for the code unit of a [\u] escape. *)
Definition encodeCodeUnit (u : N) : string :=
  if (u <? 128)%N then String (ascii_of_N u) EmptyString
  else if (u <? 2048)%N then
    String (ascii_of_N (192 + u / 64))
      (String (ascii_of_N (128 + u mod 64)) EmptyString)
  else
    String (ascii_of_N (224 + u / 4096))
      (String (ascii_of_N (128 + (u / 64) mod 64))
         (String (ascii_of_N (128 + u mod 64)) EmptyString)).

Definition unescape (c : ascii) : option ascii :=
  let n := N_of_ascii c in
  if ((n =? 34) || (n =? 92) || (n =? 47))%N then Some c
  else if Ascii.eqb c "b" then Some (ascii_of_N 8)
  else if Ascii.eqb c "f" then Some (ascii_of_N 12)
  else if Ascii.eqb c "n" then Some (ascii_of_N 10)
  else if Ascii.eqb c "r" then Some (ascii_of_N 13)
  else if Ascii.eqb c "t" then Some (ascii_of_N 9)
  else None.

Definition hex4 (a b c d : ascii) : option N :=
  x ← hexValue a; y ← hexValue b; z ← hexValue c; w ← hexValue d;
  Some (((x * 16 + y) * 16 + z) * 16 + w)%N.

(** The characters of a string literal after its opening quote, up to
    and including the closing quote. *)
Fixpoint parseChars (s : string) : option (string * string) :=
  match s with
  | EmptyString => None
  | String c r =>
      let n := N_of_ascii c in
      if (n =? 34)%N then Some (EmptyString, r)
      else if (n =? 92)%N then
        match r with
        | String e r' =>
            match unescape e with
            | Some c' =>
                '(str, rest) ← parseChars r'; Some (String c' str, rest)
            | None =>
                if Ascii.eqb e "u" then
                  match r' with
                  | String h1 (String h2 (String h3 (String h4 r''))) =>
                      u ← hex4 h1 h2 h3 h4;
                      '(str, rest) ← parseChars r'';
                      Some (encodeCodeUnit u +:+ str, rest)
                  | _ => None
                  end
                else None
            end
        | EmptyString => None
        end
      else if (n <? 32)%N then None
      else '(str, rest) ← parseChars r; Some (String c str, rest)
  end.

(** One JSON value at the front of the text.  The fuel bounds the
    nesting depth and the number of items of one array or object. *)
Fixpoint parseValue (fuel : nat) (s : string) : option (value * string) :=
  match fuel with
  | O => None
  | S fuel =>
      match skipWhitespace s with
      | EmptyString => None
      | String c r =>
          if Ascii.eqb c "n" then r' ← expect "ull" r; Some (JNull, r')
          else if Ascii.eqb c "t" then
            r' ← expect "rue" r; Some (JBool true, r')
          else if Ascii.eqb c "f" then
            r' ← expect "alse" r; Some (JBool false, r')
          else if Ascii.eqb c dquote then
            '(str, r') ← parseChars r; Some (JString str, r')
          else if Ascii.eqb c "[" then
            match skipWhitespace r with
            | String "]"%char r' => Some (JArray [], r')
            | _ =>
                '(items, r') ←
                  (fix elements (n : nat) (s : string) :=
                     match n with
                     | O => None
                     | S n =>
                         '(v, r1) ← parseValue fuel s;
                         match skipWhitespace r1 with
                         | String ","%char r2 =>
                             '(vs, r3) ← elements n r2; Some (v :: vs, r3)
                         | String "]"%char r2 => Some ([v], r2)
                         | _ => None
                         end
                     end) fuel r;
                Some (JArray items, r')
            end
          else if Ascii.eqb c "{" then
            match skipWhitespace r with
            | String "}"%char r' => Some (JObject [], r')
            | _ =>
                '(members, r') ←
                  (fix members (n : nat) (s : string) :=
                     match n with
                     | O => None
                     | S n =>
                         r0 ← expect (String dquote EmptyString)
                                (skipWhitespace s);
                         '(key, r1) ← parseChars r0;
                         r2 ← expect ":" (skipWhitespace r1);
                         '(v, r3) ← parseValue fuel r2;
                         match skipWhitespace r3 with
                         | String ","%char r4 =>
                             '(ms, r5) ← members n r4;
                             Some ((key, v) :: ms, r5)
                         | String "}"%char r4 => Some ([(key, v)], r4)
                         | _ => None
                         end
                     end) fuel r;
                Some (JObject members, r')
            end
          else parseNumber (String c r)
      end
  end.

(** [JSON.parse]: the whole text is one value between optional white
    space; [None] stands for the [SyntaxError] the built-in throws. *)
Definition parse (text : string) : option value :=
  '(v, r) ← parseValue (S (String.length text)) text;
  match skipWhitespace r with
  | EmptyString => Some v
  | String _ _ => None
  end.

End JSON.

(** ** Collections of the database *)

(** An [ObjectId] is identified with the hexadecimal string that its
    [toString()] returns. *)
Definition ObjectId := string.

Module User.
Record t := { _id : ObjectId; email : string }.
End User.

Module UserProfile.
Record t := {
  user : ObjectId;
  timezone : TimeZone;
  emailNotifications : bool;
  pushNotifications : bool
}.
End UserProfile.

Module Friend.
Record t := { _id : ObjectId; user : ObjectId; name : string; dob : Date }.
End Friend.

Module Notification.
Record t := { userId : ObjectId; friendId : ObjectId; dateSent : Date }.
End Notification.

Module DeviceInfo.
Record t := { userId : ObjectId; deviceToken : string }.
End DeviceInfo.

Record Database := {
  users : list User.t;
  userprofiles : list UserProfile.t;
  friends : list Friend.t;
  notifications : list Notification.t;
  deviceinfos : list DeviceInfo.t
}.

(** ** The JavaScript run-time: errors, the world, effects *)

Record Error := { errorName : string; errorMessage : string }.

Definition SyntaxError (msg : string) : Error :=
  {| errorName := "SyntaxError"; errorMessage := msg |}.
Definition TypeError (msg : string) : Error :=
  {| errorName := "TypeError"; errorMessage := msg |}.

(** How a computation ends: with a value, or with a thrown error (for an
    [async] function: a fulfilled or a rejected promise). *)
Inductive Completion (A : Type) :=
| Normal (a : A)
| Throw (e : Error).
Arguments Normal {A} a.
Arguments Throw {A} e.

(** A push message as [sendExpoNotifications] builds it; [to] holds
    [item.token], a [string | null]. *)
Record ExpoPushMessage := {
  to : option string;
  sound : string;
  body : string
}.

(** A ticket is whatever JSON the push service answered. *)
Definition ExpoPushTicket := JSON.value.

Inductive ConsoleLine :=
| console_log (v : JSON.value)
| console_error (e : Error)
(* a template literal: fixed text followed by the interpolated value,
   None for undefined *)
| console_error_text (text : string) (v : option JSON.value).

(** A call made to the push service. *)
Inductive Request :=
| SendPush (chunk : list ExpoPushMessage)
| GetReceipts (chunk : list JSON.value).

(** A callback registered with [setTimeout]; the only callback of the
    program is [() => handleExpoReceipts(identifier)]. *)
Record Timer := { delay : Z; timerIdentifier : string }.

(** The data base connection: [aggregate(...).exec()] either runs the
    pipeline on the stored collections or rejects. *)
Inductive Connection :=
| Connected (db : Database)
| Failing (e : Error).

Record World := {
  now : Date;                           (* the clock: new Date(), Date.now() *)
  mongo : Connection;
  ticketCache : gmap string string;
  console : list ConsoleLine;
  timers : list Timer;
  requests : list Request
}.

(** Computations: they read and change the world and may throw.  The
    world a throwing computation leaves is kept, as in JavaScript. *)
Definition JS (A : Type) : Type := World → Completion A * World.

#[global] Instance JS_ret : MRet JS := λ A a w, (Normal a, w).
#[global] Instance JS_bind : MBind JS := λ A B f m w,
  match m w with
  | (Normal a, w') => f a w'
  | (Throw e, w') => (Throw e, w')
  end.

Definition throw {A} (e : Error) : JS A := λ w, (Throw e, w).

(** [try { m } catch (error) { handler error }] *)
Definition try_catch {A} (m : JS A) (handler : Error → JS A) : JS A := λ w,
  match m w with
  | (Normal a, w') => (Normal a, w')
  | (Throw e, w') => handler e w'
  end.

(** [await] of a promise that has settled with the completion [c]. *)
Definition await {A} (c : Completion A) : JS A := λ w, (c, w).

Definition getWorld : JS World := λ w, (Normal w, w).

Definition print (line : ConsoleLine) : JS unit := λ w,
  (Normal (),
   {| now := now w; mongo := mongo w; ticketCache := ticketCache w;
      console := console w ++ [line]; timers := timers w;
      requests := requests w |}).

Definition request (r : Request) : JS unit := λ w,
  (Normal (),
   {| now := now w; mongo := mongo w; ticketCache := ticketCache w;
      console := console w; timers := timers w;
      requests := requests w ++ [r] |}).

Definition setTimeout (identifier : string) (ms : Z) : JS unit := λ w,
  (Normal (),
   {| now := now w; mongo := mongo w; ticketCache := ticketCache w;
      console := console w;
      timers := timers w ++ [{| delay := ms; timerIdentifier := identifier |}];
      requests := requests w |}).

(** Modelled from the spec: [set(key, value)] of the ticket cache of
    [utilities/cache], which is not among the sources.  The spec gives
    the cache two operations, [set] and [get], on string keys and string
    values; the cache is the [ticketCache] map of the world. *)
Definition ticketCache_set (key value : string) : JS unit := λ w,
  (Normal (),
   {| now := now w; mongo := mongo w;
      ticketCache := <[key := value]> (ticketCache w);
      console := console w; timers := timers w; requests := requests w |}).

(** Modelled from the spec: [get(key)] of the ticket cache of
    [utilities/cache], which is not among the sources; it answers
    "absent" for a key that is not stored and changes nothing. *)
Definition ticketCache_get (key : string) : JS (option string) := λ w,
  (Normal (ticketCache w !! key), w).

(** ** The Eligibility Resolver: [getApproachingBirthdays] *)

Record IApproachingBirthday := {
  userId : string;
  email : string;
  token : option string;                (* string | null *)
  friendId : string;
  friendName : string;
  hoursUntil : Z;
  emailNotifications : bool;
  pushNotifications : bool
}.

(** The documents that flow through the aggregation pipeline. *)
Module Rows.

(** After the two [$lookup]/[$unwind] pairs: a user with its profile
    and one of its friends. *)
Record joined := {
  root : User.t;
  userProfile : UserProfile.t;
  friends : Friend.t
}.

(** After the four [$addFields] stages. *)
Record dated := {
  base : joined;
  thisYearBirthday : Date;
  nextYearBirthday : Date;
  upcomingBirthday : Date;
  hoursUntilBirthday : Z
}.

(** After [$project]; [token] is missing when the user has no device. *)
Record projected := {
  userId : ObjectId;
  email : string;
  token : option string;
  friendId : ObjectId;
  friendName : string;
  hoursUntil : Z;
  emailNotifications : bool;
  pushNotifications : bool
}.

End Rows.

Section Pipeline.

Variable db : Database.
Variable currentDateTime : Date.
Variable cutoffHours : Z.
Variable notificationClearanceDateTime : Date.

(** [$lookup] from [userprofiles] on [user = _id], then [$unwind]. *)
Definition lookupUserProfile : list (User.t * UserProfile.t) :=
  u ← users db;
  pair u <$> filter (λ p, UserProfile.user p = User._id u) (userprofiles db).

(** [$match]: email or push notifications enabled. *)
Definition matchNotificationsEnabled (rows : list (User.t * UserProfile.t))
  : list (User.t * UserProfile.t) :=
  filter (λ r, UserProfile.emailNotifications r.2 = true
               ∨ UserProfile.pushNotifications r.2 = true) rows.

(** [$lookup] from [friends] on [user = _id], then [$unwind]. *)
Definition lookupFriends (rows : list (User.t * UserProfile.t))
  : list Rows.joined :=
  r ← rows;
  (λ f, {| Rows.root := r.1; Rows.userProfile := r.2; Rows.friends := f |})
    <$> filter (λ f, Friend.user f = User._id r.1) (friends db).

(** The four [$addFields] stages, in order. *)
Definition addBirthdayFields (r : Rows.joined) : Rows.dated :=
  let dob := Friend.dob (Rows.friends r) in
  let tz := UserProfile.timezone (Rows.userProfile r) in
  let thisYearBirthday :=
    dateFromParts (year currentDateTime) (month dob) (dayOfMonth dob) tz in
  let nextYearBirthday :=
    dateFromParts (year currentDateTime + 1) (month dob) (dayOfMonth dob) tz in
  let upcomingBirthday :=
    if thisYearBirthday <? currentDateTime
    then nextYearBirthday
    else thisYearBirthday in
  let hoursUntilBirthday :=
    dateDiffHour currentDateTime upcomingBirthday tz in
  {| Rows.base := r;
     Rows.thisYearBirthday := thisYearBirthday;
     Rows.nextYearBirthday := nextYearBirthday;
     Rows.upcomingBirthday := upcomingBirthday;
     Rows.hoursUntilBirthday := hoursUntilBirthday |}.

(** [$match]: [hoursUntilBirthday <= cutoffHours]. *)
Definition matchWithinCutoff (rows : list Rows.dated) : list Rows.dated :=
  filter (λ r, Rows.hoursUntilBirthday r ≤ cutoffHours) rows.

(** The sub-pipeline of the [$lookup] from [notifications]. *)
Definition recentNotifications (r : Rows.dated) : list Notification.t :=
  filter (λ n, Notification.userId n
                 = UserProfile.user (Rows.userProfile (Rows.base r))
               ∧ Notification.friendId n
                 = Friend._id (Rows.friends (Rows.base r))
               ∧ Notification.dateSent n > notificationClearanceDateTime)
         (notifications db).

(** [$match]: [recentNotifications] has size 0. *)
Definition matchNoRecentNotification (rows : list Rows.dated)
  : list Rows.dated :=
  filter (λ r, List.length (recentNotifications r) = 0%nat) rows.

(** [$lookup] from [deviceinfos] on [userId = _id], then [$unwind] with
    [preserveNullAndEmptyArrays]: a row without a device is kept. *)
Definition lookupDevice (rows : list Rows.dated)
  : list (Rows.dated * option DeviceInfo.t) :=
  r ← rows;
  match filter (λ d, DeviceInfo.userId d = User._id (Rows.root (Rows.base r)))
               (deviceinfos db) with
  | [] => [(r, None)]
  | devices => pair r ∘ Some <$> devices
  end.

(** [$project] *)
Definition project (r : Rows.dated * option DeviceInfo.t) : Rows.projected :=
  let j := Rows.base r.1 in
  {| Rows.userId := UserProfile.user (Rows.userProfile j);
     Rows.email := User.email (Rows.root j);
     Rows.token := DeviceInfo.deviceToken <$> r.2;
     Rows.friendId := Friend._id (Rows.friends j);
     Rows.friendName := Friend.name (Rows.friends j);
     Rows.hoursUntil := Rows.hoursUntilBirthday r.1;
     Rows.emailNotifications :=
       UserProfile.emailNotifications (Rows.userProfile j);
     Rows.pushNotifications :=
       UserProfile.pushNotifications (Rows.userProfile j) |}.

(** The pipeline given to [User.aggregate]. *)
Definition pipeline : list Rows.projected :=
  project <$>
    lookupDevice
      (matchNoRecentNotification
         (matchWithinCutoff
            (addBirthdayFields <$>
               lookupFriends
                 (matchNotificationsEnabled lookupUserProfile)))).

End Pipeline.

(** [User.aggregate([...]).exec()] *)
Definition aggregate {R} (stages : Database → list R) : JS (list R) := λ w,
  match mongo w with
  | Connected db => (Normal (stages db), w)
  | Failing e => (Throw e, w)
  end.

Definition ObjectId_toString (id : ObjectId) : string := id.

Definition getApproachingBirthdays (cutoffHours lastNotificationClearance : Z)
  : JS (list IApproachingBirthday) :=
  try_catch
    (w ← getWorld;
     let currentDateTime := now w in
     let notificationClearanceDateTime :=
       currentDateTime - lastNotificationClearance * 3600000 in
     users ←
       aggregate (λ db, pipeline db currentDateTime cutoffHours
                          notificationClearanceDateTime);
     mret ((λ user,
              {| userId := ObjectId_toString (Rows.userId user);
                 email := Rows.email user;
                 token := Rows.token user;
                 friendId := ObjectId_toString (Rows.friendId user);
                 friendName := Rows.friendName user;
                 hoursUntil := Rows.hoursUntil user;
                 emailNotifications := Rows.emailNotifications user;
                 pushNotifications := Rows.pushNotifications user |})
             <$> users))
    (λ error, print (console_error error);; mret []).

(** The default arguments: [cutoffHours = 96],
    [lastNotificationClearance = 24]. *)
Definition getApproachingBirthdays_default : JS (list IApproachingBirthday) :=
  getApproachingBirthdays 96 24.

(** ** The Expo SDK *)

(** What the program uses of an [Expo] client.  The service's answers are
    a function of the chunk it is sent; a rejected promise is a [Throw].
    The SDK sets both chunk limits (100 messages, 300 receipt ids). *)
Record Expo := {
  pushNotificationChunkSizeLimit : nat;
  pushNotificationReceiptChunkSizeLimit : nat;
  sendPushNotificationsAsync :
    list ExpoPushMessage → Completion (list ExpoPushTicket);
  getPushNotificationReceiptsAsync :
    list JSON.value → Completion (list (string * JSON.value))
}.

(** The SDK's chunking loop: items are pushed on the current chunk, which
    is closed as soon as it holds [limit] items; a last, shorter chunk is
    closed at the end if it is not empty. *)
Fixpoint chunkLoop {A} (limit : nat) (items chunk : list A) : list (list A) :=
  match items with
  | [] => match chunk with [] => [] | _ :: _ => [chunk] end
  | item :: items' =>
      let chunk' := chunk ++ [item] in
      if (limit <=? List.length chunk')%nat
      then chunk' :: chunkLoop limit items' []
      else chunkLoop limit items' chunk'
  end.

Definition chunkPushNotifications (expo : Expo)
    (messages : list ExpoPushMessage) : list (list ExpoPushMessage) :=
  chunkLoop (pushNotificationChunkSizeLimit expo) messages [].

Definition chunkPushNotificationReceiptIds (expo : Expo)
    (receiptIds : list JSON.value) : list (list JSON.value) :=
  chunkLoop (pushNotificationReceiptChunkSizeLimit expo) receiptIds [].

(** ** JavaScript operations on JSON values *)

(** [!!v], with [None] for [undefined]. *)
Definition truthy (v : option JSON.value) : bool :=
  match v with
  | None => false
  | Some JSON.JNull => false
  | Some (JSON.JBool b) => b
  | Some (JSON.JNumber m _) => negb (m =? 0)
  | Some (JSON.JString EmptyString) => false
  | Some (JSON.JString (String _ _)) => true
  | Some (JSON.JArray _) => true
  | Some (JSON.JObject _) => true
  end.

(** [!!token] for a [string | null]. *)
Definition truthyString (s : option string) : bool :=
  match s with
  | Some (String _ _) => true
  | Some EmptyString | None => false
  end.

(** The member an object has under a key; of two members with the same
    key the later one counts. *)
Fixpoint lookupMember (key : string) (members : list (string * JSON.value))
  : option JSON.value :=
  match members with
  | [] => None
  | (k, v) :: rest =>
      match lookupMember key rest with
      | Some v' => Some v'
      | None => if String.eqb k key then Some v else None
      end
  end.

(** [v.key] for a key that is no built-in property of strings, arrays,
    numbers or booleans ([id], [status], [message], [details], [error]):
    reading a property of [null] throws, other values that are not
    objects answer [undefined]. *)
Definition getProperty (v : JSON.value) (key : string)
  : JS (option JSON.value) :=
  match v with
  | JSON.JNull =>
      throw (TypeError ("Cannot read properties of null, reading " +:+ key))
  | JSON.JObject members => mret (lookupMember key members)
  | _ => mret None
  end.

(** The items a [for ... of] loop visits: the elements of an array, the
    characters of a string; other JSON values are not iterable. *)
Definition iterate (v : JSON.value) : JS (list JSON.value) :=
  match v with
  | JSON.JArray items => mret items
  | JSON.JString s =>
      mret ((λ c, JSON.JString (String c EmptyString))
              <$> list_ascii_of_string s)
  | _ => throw (TypeError "tickets is not iterable")
  end.

(** [JSON.parse(text)]; an [undefined] argument is first converted to the
    string ["undefined"]. *)
Definition JSON_parse (text : option string) : JS JSON.value :=
  match JSON.parse (default "undefined" text) with
  | Some v => mret v
  | None => throw (SyntaxError "Unexpected token in JSON")
  end.

(** [v === s] for a string literal [s]. *)
Definition isString (s : string) (v : option JSON.value) : bool :=
  match v with
  | Some (JSON.JString s') => String.eqb s' s
  | _ => false
  end.

(** ** The Batch Dispatcher: [sendExpoNotifications] *)

(** The un-awaited [(async () => { for (let chunk of chunks) ... })()]:
    either it has run to its end, or it is suspended at the [await] of
    the submission of [chunk], with the chunks in [rest] still to do. *)
Inductive Pending :=
| Settled
| AwaitingSend (chunk : list ExpoPushMessage)
               (rest : list (list ExpoPushMessage)).

(** What a call of [sendExpoNotifications] leaves behind when it returns:
    its [tickets] array, still shared with the suspended loop. *)
Record Activation := {
  tickets : list ExpoPushTicket;
  sending : Pending
}.

(** The head of the loop: with a chunk left, the submission is started
    and the loop suspends at its [await]. *)
Definition sendNext (chunks : list (list ExpoPushMessage)) : JS Pending :=
  match chunks with
  | [] => mret Settled
  | chunk :: rest => request (SendPush chunk);; mret (AwaitingSend chunk rest)
  end.

(** The loop resumed when the submission of [chunk] has settled: the rest
    of the [try] block or the [catch] block, then the next turn. *)
Definition resumeSend (expo : Expo) (tickets : list ExpoPushTicket)
    (chunk : list ExpoPushMessage) (rest : list (list ExpoPushMessage))
  : JS Activation :=
  tickets' ←
    try_catch
      (ticketChunk ← await (sendPushNotificationsAsync expo chunk);
       print (console_log (JSON.JArray ticketChunk));;
       mret (tickets ++ ticketChunk))
      (λ error, print (console_error error);; mret tickets);
  sending ← sendNext rest;
  mret {| tickets := tickets'; sending := sending |}.

Definition sendExpoNotifications (expo : Expo)
    (birthdays : list IApproachingBirthday) : JS Activation :=
  let pushList :=
    List.filter (λ item, pushNotifications item && truthyString (token item))
                birthdays in
  let messages :=
    (λ item,
       {| to := token item;
          sound := "default";
          body := friendName item +:+ "'s birthday is "
                  +:+ pretty (hoursUntil item) +:+ " hours away!" |})
      <$> pushList in
  let chunks := chunkPushNotifications expo messages in
  let tickets : list ExpoPushTicket := [] in
  (* the async arrow function runs up to its first await *)
  sending ← sendNext chunks;
  (* set ticket cache *)
  w ← getWorld;
  let identifier := pretty (now w) in
  ticketCache_set identifier (JSON.stringify (JSON.JArray tickets));;
  setTimeout identifier (60 * 1000);;
  mret {| tickets := tickets; sending := sending |}.

(** The event loop resumes the suspended loop [n] times. *)
Fixpoint settle (expo : Expo) (n : nat) (act : Activation) : JS Activation :=
  match n, sending act with
  | S n, AwaitingSend chunk rest =>
      act' ← resumeSend expo (tickets act) chunk rest;
      settle expo n act'
  | _, _ => mret act
  end.

(** The number of resumptions a suspended loop still needs. *)
Definition turnsLeft (p : Pending) : nat :=
  match p with
  | Settled => 0
  | AwaitingSend _ rest => S (List.length rest)
  end.

Definition settleAll (expo : Expo) (act : Activation) : JS Activation :=
  settle expo (turnsLeft (sending act)) act.

(** ** The Receipt Reconciler: [handleExpoReceipts] *)

(** The first loop: the truthy [ticket.id]s, in order. *)
Fixpoint collectReceiptIds (tickets receiptIds : list JSON.value)
  : JS (list JSON.value) :=
  match tickets with
  | [] => mret receiptIds
  | ticket :: rest =>
      id ← getProperty ticket "id";
      match id with
      | Some v =>
          if truthy id
          then collectReceiptIds rest (receiptIds ++ [v])
          else collectReceiptIds rest receiptIds
      | None => collectReceiptIds rest receiptIds
      end
  end.

(** The body of the [for (let receiptId in receipts)] loop; [receipt] is
    [receipts[receiptId]], and destructuring [null] or [undefined]
    throws. *)
Definition classifyReceipt (receipt : option JSON.value) : JS unit :=
  match receipt with
  | None | Some JSON.JNull =>
      throw (TypeError "Cannot destructure property status")
  | Some r =>
      status ← getProperty r "status";
      message ← getProperty r "message";
      details ← getProperty r "details";
      if isString "ok" status then mret ()
      else if isString "error" status then
        print (console_error_text
                 "There was an error sending a notification: " message);;
        match details with
        | Some d =>
            if truthy details then
              code ← getProperty d "error";
              if truthy code
              then print (console_error_text "The error code is " code)
              else mret ()
            else mret ()
        | None => mret ()
        end
      else mret ()
  end.

Fixpoint forEachReceipt (receiptIds : list string)
    (receipts : list (string * JSON.value)) : JS unit :=
  match receiptIds with
  | [] => mret ()
  | receiptId :: rest =>
      classifyReceipt (lookupMember receiptId receipts);;
      forEachReceipt rest receipts
  end.

(** The second loop: one poll per chunk of receipt ids. *)
Fixpoint pollReceipts (expo : Expo) (receiptIdChunks : list (list JSON.value))
  : JS unit :=
  match receiptIdChunks with
  | [] => mret ()
  | chunk :: rest =>
      try_catch
        (request (GetReceipts chunk);;
         receipts ← await (getPushNotificationReceiptsAsync expo chunk);
         print (console_log (JSON.JObject receipts));;
         forEachReceipt receipts.*1 receipts)
        (λ error, print (console_error error));;
      pollReceipts expo rest
  end.

Definition handleExpoReceipts (expo : Expo) (identifier : string) : JS unit :=
  try_catch
    (cached ← ticketCache_get identifier;
     tickets ← JSON_parse cached;
     items ← iterate tickets;
     receiptIds ← collectReceiptIds items [];
     let receiptIdChunks := chunkPushNotificationReceiptIds expo receiptIds in
     pollReceipts expo receiptIdChunks)
    (λ error, print (console_error error)).

(** ** Timers and a whole dispatch *)

(** The callbacks of the registered timers, run in order. *)
Fixpoint fireTimers (expo : Expo) (due : list Timer) : JS unit :=
  match due with
  | [] => mret ()
  | t :: rest =>
      handleExpoReceipts expo (timerIdentifier t);; fireTimers expo rest
  end.

Definition clearTimers : JS (list Timer) := λ w,
  (Normal (timers w),
   {| now := now w; mongo := mongo w; ticketCache := ticketCache w;
      console := console w; timers := []; requests := requests w |}).

Definition runTimers (expo : Expo) : JS unit :=
  due ← clearTimers; fireTimers expo due.

(** A call of [sendExpoNotifications] followed by everything it set in
    motion: the submissions of the suspended loop, then the timer. *)
Definition dispatch (expo : Expo) (birthdays : list IApproachingBirthday)
  : JS Activation :=
  act ← sendExpoNotifications expo birthdays;
  act' ← settleAll expo act;
  runTimers expo;;
  mret act'.

(** ** Notions used in the statements *)

(** The (user, profile, friend) rows the date stages are applied to. *)
Definition candidates (db : Database) : list Rows.joined :=
  lookupFriends db (matchNotificationsEnabled (lookupUserProfile db)).

(** The devices [lookupDevice] pairs a row with. *)
Definition deviceOf (db : Database) (j : Rows.joined)
    (dev : option DeviceInfo.t) : Prop :=
  match dev with
  | Some d => d ∈ deviceinfos db ∧ DeviceInfo.userId d = User._id (Rows.root j)
  | None => ∀ d, d ∈ deviceinfos db →
                 DeviceInfo.userId d ≠ User._id (Rows.root j)
  end.

(** The arrow function mapped over the aggregation's result. *)
Definition tuple (user : Rows.projected) : IApproachingBirthday :=
  {| userId := ObjectId_toString (Rows.userId user);
     email := Rows.email user;
     token := Rows.token user;
     friendId := ObjectId_toString (Rows.friendId user);
     friendName := Rows.friendName user;
     hoursUntil := Rows.hoursUntil user;
     emailNotifications := Rows.emailNotifications user;
     pushNotifications := Rows.pushNotifications user |}.

(** The world after [lines] were printed and [reqs] sent. *)
Definition emit (w : World) (lines : list ConsoleLine) (reqs : list Request)
  : World :=
  {| now := now w; mongo := mongo w; ticketCache := ticketCache w;
     console := console w ++ lines; timers := timers w;
     requests := requests w ++ reqs |}.

(** [Emits m c lines reqs]: in every world, [m] ends with [c] after
    printing [lines] and sending [reqs], and changes nothing else. *)
Definition Emits {A} (m : JS A) (c : Completion A)
    (lines : list ConsoleLine) (reqs : list Request) : Prop :=
  ∀ w, m w = (c, emit w lines reqs).

(** A computation that does neither. *)
Definition Pure {A} (m : JS A) : Prop := ∃ c, Emits m c [] [].

(** The requests of the reconciler. *)
Definition isGetReceipts (r : Request) : Prop :=
  match r with
  | GetReceipts _ => True
  | SendPush _ => False
  end.

(** The quotient rounded up. *)
Definition ceilDiv (n d : nat) : nat := ((n + d - 1) / d)%nat.

(** The [messages] array of [sendExpoNotifications]. *)
Definition pushMessages (birthdays : list IApproachingBirthday)
  : list ExpoPushMessage :=
  (λ item,
     {| to := token item;
        sound := "default";
        body := friendName item +:+ "'s birthday is "
                +:+ pretty (hoursUntil item) +:+ " hours away!" |})
    <$> List.filter
          (λ item, pushNotifications item && truthyString (token item))
          birthdays.

(** The state of the loop over [chunks] at its first [await]. *)
Definition suspended (chunks : list (list ExpoPushMessage)) : Pending :=
  match chunks with
  | [] => Settled
  | chunk :: rest => AwaitingSend chunk rest
  end.

(** The tickets the service returns for a chunk, none if it rejects. *)
Definition ticketsOf (expo : Expo) (chunk : list ExpoPushMessage)
  : list ExpoPushTicket :=
  match sendPushNotificationsAsync expo chunk with
  | Normal ticketChunk => ticketChunk
  | Throw _ => []
  end.

(** The line printed when the submission of a chunk has settled. *)
Definition sendLine (expo : Expo) (chunk : list ExpoPushMessage)
  : ConsoleLine :=
  match sendPushNotificationsAsync expo chunk with
  | Normal ticketChunk => console_log (JSON.JArray ticketChunk)
  | Throw e => console_error e
  end.

(** The chunks submitted, among the requests of a world. *)
Definition submissions (rs : list Request) : list (list ExpoPushMessage) :=
  omap (λ r, match r with
             | SendPush chunk => Some chunk
             | GetReceipts _ => None
             end) rs.

(** ** A small installation, for the examples *)

Module Demo.

(** One user in a zone one hour east of UTC, with one device and three
    friends.  It is 2026-11-01 23:00 UTC, midnight for the user. *)
Definition today : Date := daysFromCivil 2026 11 1 * msPerDay + 23 * msPerHour.

Definition zone : TimeZone := {| utcOffset := 60 |}.

Definition user1 : User.t :=
  {| User._id := "u1"; User.email := "u1@example.org" |}.

Definition profile1 : UserProfile.t :=
  {| UserProfile.user := "u1";
     UserProfile.timezone := zone;
     UserProfile.emailNotifications := false;
     UserProfile.pushNotifications := true |}.

(** Born on 6 November: the birthday is 96 hours away. *)
Definition alice : Friend.t :=
  {| Friend._id := "f1"; Friend.user := "u1"; Friend.name := "Alice";
     Friend.dob := daysFromCivil 1990 11 6 * msPerDay + 55800000 |}.

(** Born on 15 March: this year's birthday has passed. *)
Definition bob : Friend.t :=
  {| Friend._id := "f2"; Friend.user := "u1"; Friend.name := "Bob";
     Friend.dob := daysFromCivil 1992 3 15 * msPerDay + 8 * msPerHour |}.

(** Born on 3 November: the birthday is 24 hours away. *)
Definition carol : Friend.t :=
  {| Friend._id := "f3"; Friend.user := "u1"; Friend.name := "Carol";
     Friend.dob := daysFromCivil 1988 11 3 * msPerDay |}.

(** A notification about Alice sent 24 hours and one minute ago, one
    about Carol sent 23 hours and 59 minutes ago. *)
Definition db : Database :=
  {| users := [user1];
     userprofiles := [profile1];
     friends := [alice; bob; carol];
     notifications :=
       [ {| Notification.userId := "u1"; Notification.friendId := "f1";
            Notification.dateSent := today - 24 * 3600000 - 60000 |};
         {| Notification.userId := "u1"; Notification.friendId := "f3";
            Notification.dateSent := today - 24 * 3600000 + 60000 |} ];
     deviceinfos :=
       [ {| DeviceInfo.userId := "u1"; DeviceInfo.deviceToken := "tok1" |} ]
  |}.

Definition row (f : Friend.t) : Rows.joined :=
  {| Rows.root := user1; Rows.userProfile := profile1; Rows.friends := f |}.

Definition world : World :=
  {| now := today; mongo := Connected db; ticketCache := ∅;
     console := []; timers := []; requests := [] |}.

Definition offline : World :=
  {| now := today;
     mongo := Failing {| errorName := "MongoNetworkError";
                         errorMessage := "connection refused" |};
     ticketCache := ∅; console := []; timers := []; requests := [] |}.

Definition okTicket (id : string) : ExpoPushTicket :=
  JSON.JObject [("status", JSON.JString "ok"); ("id", JSON.JString id)].

Definition okReceipt (id : JSON.value) : option (string * JSON.value) :=
  match id with
  | JSON.JString s => Some (s, JSON.JObject [("status", JSON.JString "ok")])
  | _ => None
  end.

(** A push service that accepts everything, with chunks of two: the
    ticket of a message is named after its destination. *)
Definition expo : Expo :=
  {| pushNotificationChunkSizeLimit := 2;
     pushNotificationReceiptChunkSizeLimit := 2;
     sendPushNotificationsAsync := λ chunk,
       Normal ((λ m, okTicket ("receipt-" +:+ default "null" (to m)))
                 <$> chunk);
     getPushNotificationReceiptsAsync := λ ids, Normal (omap okReceipt ids)
  |}.

(** A push service that cannot be reached. *)
Definition unreachable : Expo :=
  {| pushNotificationChunkSizeLimit := 2;
     pushNotificationReceiptChunkSizeLimit := 2;
     sendPushNotificationsAsync := λ _,
       Throw {| errorName := "FetchError"; errorMessage := "timeout" |};
     getPushNotificationReceiptsAsync := λ _,
       Throw {| errorName := "FetchError"; errorMessage := "timeout" |}
  |}.

Definition birthday (name : string) (hours : Z) (device : option string)
  : IApproachingBirthday :=
  {| userId := "u1"; email := "u1@example.org"; token := device;
     friendId := name; friendName := name; hoursUntil := hours;
     emailNotifications := false; pushNotifications := true |}.

(** A world whose cache holds one ticket under the key ["1"]. *)
Definition cached : World :=
  {| now := today; mongo := Connected db;
     ticketCache := {[ "1" := JSON.stringify (JSON.JArray [okTicket "r1"]) ]};
     console := []; timers := []; requests := [] |}.

End Demo.

(** ** The user model: [src/models/user.ts] *)

Module UserModel.

(** *** [validatePasswordPattern] *)

Definition isLower (c : ascii) : bool :=
  let n := N_of_ascii c in ((97 <=? n) && (n <=? 122))%N.

Definition isUpper (c : ascii) : bool :=
  let n := N_of_ascii c in ((65 <=? n) && (n <=? 90))%N.

(** [\d] *)
Definition isDigit (c : ascii) : bool :=
  let n := N_of_ascii c in ((48 <=? n) && (n <=? 57))%N.

(** The codes of the characters of the class of special characters, in
    the order of the source: . * ! @ _ - ( ) [ ] = ? ' (double quote)
    \ / # $ % | ^ & + : ; ! < > *)
Definition specialCodes : list N :=
  [46; 42; 33; 64; 95; 45; 40; 41; 91; 93; 61; 63; 39; 34; 92; 47; 35; 36;
   37; 124; 94; 38; 43; 58; 59; 33; 60; 62]%N.

Definition isSpecial (c : ascii) : bool :=
  existsb (N.eqb (N_of_ascii c)) specialCodes.

(** The class of the body of the pattern: letters, digits and special
    characters. *)
Definition isAllowed (c : ascii) : bool :=
  isLower c || isUpper c || isDigit c || isSpecial c.

(** [.] does not match a line terminator. *)
Definition isLineTerminator (c : ascii) : bool :=
  let n := N_of_ascii c in ((n =? 10) || (n =? 13))%N.

(** The look-ahead [(?=.*[cls])] at the start of the text: some
    character of the class is reached over characters that [.] matches. *)
Fixpoint lookahead (cls : ascii → bool) (s : string) : bool :=
  match s with
  | EmptyString => false
  | String c r => cls c || (negb (isLineTerminator c) && lookahead cls r)
  end.

Fixpoint allChars (cls : ascii → bool) (s : string) : bool :=
  match s with
  | EmptyString => true
  | String c r => cls c && allChars cls r
  end.

(** The pattern is four look-aheads and then [[class]{8,}] from [^] to
    [$]. *)
Definition validatePasswordPattern (val : string) : bool :=
  lookahead isLower val
  && lookahead isUpper val
  && lookahead isDigit val
  && lookahead isSpecial val
  && (allChars isAllowed val && (8 <=? String.length val)%nat).

(** *** The [toJSON] transform *)

(** The values of the fields of a user document. *)
Inductive Value :=
| VString (s : string)
| VNumber (n : Z)
| VDate (t : Date)
| VObjectId (id : ObjectId).

Definition digitChar (n : Z) : ascii := ascii_of_N (48 + Z.to_N (n mod 10)).

Definition pad2 (n : Z) : string :=
  String (digitChar (n / 10)) (String (digitChar n) EmptyString).

Definition pad3 (n : Z) : string := String (digitChar (n / 100)) (pad2 n).

Definition pad4 (n : Z) : string := String (digitChar (n / 1000)) (pad3 n).

Definition pad6 (n : Z) : string :=
  String (digitChar (n / 100000)) (String (digitChar (n / 10000)) (pad4 n)).

(** The year of an ISO date: four digits from 0 to 9999, otherwise a
    sign and six digits. *)
Definition isoYear (y : Z) : string :=
  if (0 <=? y) && (y <=? 9999) then pad4 y
  else String (if y <? 0 then "-"%char else "+"%char) (pad6 (Z.abs y)).

(** [Date.prototype.toISOString] of a valid date:
    [YYYY-MM-DDTHH:mm:ss.sssZ], in UTC. *)
Definition toISOString (t : Date) : string :=
  let ms := t mod msPerDay in
  isoYear (year t) +:+ "-" +:+ pad2 (month t) +:+ "-" +:+ pad2 (dayOfMonth t)
  +:+ "T" +:+ pad2 (ms / 3600000) +:+ ":" +:+ pad2 (ms mod 3600000 / 60000)
  +:+ ":" +:+ pad2 (ms mod 60000 / 1000) +:+ "." +:+ pad3 (ms mod 1000)
  +:+ "Z".

(** [s.split(sep)[0]]: the text before the first separator. *)
Fixpoint splitFirst (sep : ascii) (s : string) : string :=
  match s with
  | EmptyString => EmptyString
  | String c r =>
      if Ascii.eqb c sep then EmptyString else String c (splitFirst sep r)
  end.

(** The [transform] of the schema's [toJSON] option, on the plain object
    [ret]. *)
Definition transform (ret : gmap string Value) : gmap string Value :=
  let ret := delete "passwordHash" ret in
  match ret !! "dob" with
  | Some (VDate dob) =>
      <["dob" := VString (splitFirst "T" (toISOString dob))]> ret
  | _ => ret
  end.

(** *** The [pre("save")] hook *)

(** A user document with what Mongoose knows about it. *)
Record Document := {
  _id : ObjectId;
  email : string;
  name : string;
  passwordHash : string;
  dob : Date;
  gender : string;
  tel : option Z;
  isNew : bool;
  modifiedPaths : list string
}.

Definition isModified (path : string) (this : Document) : bool :=
  bool_decide (path ∈ modifiedPaths this).

(** What the hook hands to [next]. *)
Inductive NextArgument :=
| NoError
| WithError (e : Error).

Definition newError (msg : string) : Error :=
  {| errorName := "Error"; errorMessage := msg |}.

(** [Profile.create(profile)]: the profile is added to [userprofiles], or
    the promise rejects when the data base cannot be reached. *)
Definition Profile_create (profile : UserProfile.t) : JS unit := λ w,
  match mongo w with
  | Connected db =>
      (Normal (),
       {| now := now w;
          mongo := Connected
                     {| users := users db;
                        userprofiles := userprofiles db ++ [profile];
                        friends := friends db;
                        notifications := notifications db;
                        deviceinfos := deviceinfos db |};
          ticketCache := ticketCache w; console := console w;
          timers := timers w; requests := requests w |})
  | Failing e => (Throw e, w)
  end.

Definition setPasswordHash (this : Document) (hash : string) : Document :=
  {| _id := _id this; email := email this; name := name this;
     passwordHash := hash; dob := dob this; gender := gender this;
     tel := tel this; isNew := isNew this;
     modifiedPaths := modifiedPaths this |}.

Section PreSave.

(** The fields a blank profile gets from [userProfileSchema], and
    [hashString] of [utilities/cryptoService]; neither is among the
    sources. *)
Variable defaults : UserProfile.t.
Variable hashString : string → Completion string.

Definition blankProfile (user : ObjectId) : UserProfile.t :=
  {| UserProfile.user := user;
     UserProfile.timezone := UserProfile.timezone defaults;
     UserProfile.emailNotifications := UserProfile.emailNotifications defaults;
     UserProfile.pushNotifications := UserProfile.pushNotifications defaults |}.

(** The hook: the document it leaves and the argument it calls [next]
    with; a [Throw] is the rejection of the hook's own promise. *)
Definition preSave (this : Document) : JS (Document * NextArgument) :=
  (* Automatically create a new blank user profile when user is created *)
  (if isNew this then Profile_create (blankProfile (_id this)) else mret ());;
  w ← getWorld;
  if isModified "dob" this && (now w <? dob this) then
    mret (this, WithError (newError "Date of birth cannot be in the future"))
  else if negb (isModified "passwordHash" this) then
    mret (this, NoError)
  else
    try_catch
      ((if negb (validatePasswordPattern (passwordHash this))
        then throw (newError
                      "Password must have at least 1 lower-case, 1 upper-case letter, 1 digit and 1 special character")
        else mret ());;
       hash ← await (hashString (passwordHash this));
       mret (setPasswordHash this hash, NoError))
      (λ error, mret (this, WithError error)).

End PreSave.

End UserModel.

(** A user for the examples, with a hash function that only marks its
    argument. *)
Module UserDemo.

Definition defaults : UserProfile.t :=
  {| UserProfile.user := EmptyString;
     UserProfile.timezone := UTC;
     UserProfile.emailNotifications := true;
     UserProfile.pushNotifications := false |}.

Definition hashString (s : string) : Completion string :=
  Normal ("hashed:" +:+ s).

(** A new user born on 6 November 1990. *)
Definition ann : UserModel.Document :=
  {| UserModel._id := "u7"; UserModel.email := "ann@example.org";
     UserModel.name := "Ann"; UserModel.passwordHash := "Passw0rd_";
     UserModel.dob := daysFromCivil 1990 11 6 * msPerDay;
     UserModel.gender := "female"; UserModel.tel := None;
     UserModel.isNew := true;
     UserModel.modifiedPaths :=
       ["email"; "name"; "passwordHash"; "dob"; "gender"] |}.

(** Ann, stored, changes her date of birth to tomorrow. *)
Definition late : UserModel.Document :=
  {| UserModel._id := "u7"; UserModel.email := "ann@example.org";
     UserModel.name := "Ann"; UserModel.passwordHash := "hashed:Passw0rd_";
     UserModel.dob := Demo.today + msPerDay;
     UserModel.gender := "female"; UserModel.tel := None;
     UserModel.isNew := false;
     UserModel.modifiedPaths := ["dob"] |}.

(** Ann's document as [toJSON] hands it to the transform. *)
Definition annJSON : gmap string UserModel.Value :=
  {[ "_id" := UserModel.VObjectId "u7";
     "email" := UserModel.VString "ann@example.org";
     "name" := UserModel.VString "Ann";
     "passwordHash" := UserModel.VString "hashed:Passw0rd_";
     "dob" := UserModel.VDate (daysFromCivil 1990 11 6 * msPerDay
                               + 55800000);
     "gender" := UserModel.VString "female" ]}.

End UserDemo.

(** ** Further cases at the example installation *)

Module Scenario.

(** A world whose cache holds, under the key ["1"], an array with a
    [null] after a ticket. *)
Definition nullBatch : World :=
  {| now := Demo.today; mongo := Connected Demo.db;
     ticketCache :=
       {[ "1" := JSON.stringify
                   (JSON.JArray [Demo.okTicket "r1"; JSON.JNull]) ]};
     console := []; timers := []; requests := [] |}.

(** The tuple the resolver returns for Alice. *)
Definition aliceTuple : IApproachingBirthday :=
  {| userId := "u1"; email := "u1@example.org"; token := Some "tok1";
     friendId := "f1"; friendName := "Alice"; hoursUntil := 96;
     emailNotifications := false; pushNotifications := true |}.

End Scenario.

(** ** Notions used in the further statements *)

(** The calendar date of a stored date, as [YYYY-MM-DD] in UTC. *)
Definition isoDate (t : Date) : string :=
  UserModel.pad4 (year t) +:+ "-" +:+ UserModel.pad2 (month t)
  +:+ "-" +:+ UserModel.pad2 (dayOfMonth t).

(** The receipt identifiers of stored tickets: the truthy [id] members,
    in order. *)
Definition receiptIdsOf (items : list JSON.value) : list JSON.value :=
  omap (λ ticket,
          match ticket with
          | JSON.JObject members =>
              match lookupMember "id" members with
              | Some v => if truthy (Some v) then Some v else None
              | None => None
              end
          | _ => None
          end) items.

(** * Properties *)

(** The date operators are kept folded unless a proof is about them. *)
Opaque dateFromParts dateDiffHour year month dayOfMonth.

(** ** The pipeline of the Resolver *)

Section PipelineFacts.

Context (db : Database) (currentDateTime : Date).
Context (cutoffHours : Z) (clearance : Date).

Lemma elem_of_candidates j :
  j ∈ candidates db ↔
    Rows.root j ∈ users db
    ∧ Rows.userProfile j ∈ userprofiles db
    ∧ UserProfile.user (Rows.userProfile j) = User._id (Rows.root j)
    ∧ (UserProfile.emailNotifications (Rows.userProfile j) = true
       ∨ UserProfile.pushNotifications (Rows.userProfile j) = true)
    ∧ Rows.friends j ∈ friends db
    ∧ Friend.user (Rows.friends j) = User._id (Rows.root j).
Proof.
  unfold candidates, lookupFriends, matchNotificationsEnabled,
    lookupUserProfile.
  rewrite list_elem_of_bind. split.
  - intros ([u p] & Hj & Hr). cbv beta in Hj.
    apply list_elem_of_fmap in Hj as (f & Hj & Hf). subst j.
    apply list_elem_of_filter in Hf; destruct Hf as (Hfu & Hf).
    apply list_elem_of_filter in Hr; destruct Hr as (Hen & Hr).
    apply list_elem_of_bind in Hr as (u' & Hp & Hu).
    apply list_elem_of_fmap in Hp as (p' & Heq & Hp).
    injection Heq as <- <-.
    apply list_elem_of_filter in Hp; destruct Hp as (Hpu & Hp).
    simpl in *. auto 10.
  - destruct j as [u p f]; simpl. intros (Hu & Hp & Hpu & Hen & Hf & Hfu).
    exists (u, p). split.
    + apply list_elem_of_fmap. exists f. split; [done|].
      by apply list_elem_of_filter.
    + apply list_elem_of_filter. split; [done|].
      apply list_elem_of_bind. exists u. split; [|done].
      apply list_elem_of_fmap. exists p. split; [done|].
      by apply list_elem_of_filter.
Qed.

Lemma elem_of_lookupDevice rows r dev :
  (r, dev) ∈ lookupDevice db rows ↔ r ∈ rows ∧ deviceOf db (Rows.base r) dev.
Proof.
  unfold lookupDevice. rewrite list_elem_of_bind. split.
  - intros (r' & Hin & Hr').
    destruct (filter _ (deviceinfos db)) as [|d ds] eqn:Hds.
    + apply list_elem_of_singleton in Hin. injection Hin as -> ->.
      split; [done|].
      intros d Hd Heq. exact (filter_nil_not_elem_of _ _ d Hds Heq Hd).
    + apply list_elem_of_fmap in Hin as (d' & Heq & Hd').
      injection Heq as -> ->.
      split; [done|]. rewrite <- Hds in Hd'.
      apply list_elem_of_filter in Hd'. by destruct Hd'.
  - intros [Hr Hdev]. exists r. split; [|done].
    destruct dev as [d|]; simpl in Hdev.
    + destruct Hdev as [Hd Hu].
      assert (d ∈ filter (λ d, DeviceInfo.userId d
                               = User._id (Rows.root (Rows.base r)))
                         (deviceinfos db)) as Hin
        by by apply list_elem_of_filter.
      destruct (filter _ (deviceinfos db)) as [|d0 ds]; [by inv Hin|].
      apply list_elem_of_fmap. by exists d.
    + destruct (filter _ (deviceinfos db)) as [|d0 ds] eqn:Hds;
        [by apply list_elem_of_singleton|].
      assert (d0 ∈ d0 :: ds) as Hin by left.
      rewrite <- Hds in Hin. apply list_elem_of_filter in Hin; destruct Hin as (? & ?).
      naive_solver.
Qed.

(** A row survives the clearance stage when no notification of its
    pair is newer than the threshold. *)
Lemma recentNotifications_size_0 r :
  List.length (recentNotifications db clearance r) = 0%nat ↔
    ∀ n, n ∈ notifications db →
         Notification.userId n
           = UserProfile.user (Rows.userProfile (Rows.base r)) →
         Notification.friendId n = Friend._id (Rows.friends (Rows.base r)) →
         Notification.dateSent n ≤ clearance.
Proof.
  unfold recentNotifications. split.
  - intros Hlen n Hn Hu Hf. apply nil_length_inv in Hlen.
    destruct (decide (Notification.dateSent n ≤ clearance)); [done|].
    exfalso. refine (filter_nil_not_elem_of _ _ n Hlen _ Hn).
    split_and!; [done|done|lia].
  - intros Hall.
    destruct (filter _ (notifications db)) as [|n ns] eqn:Hns; [done|].
    assert (n ∈ n :: ns) as Hin by left.
    rewrite <- Hns in Hin.
    apply list_elem_of_filter in Hin; destruct Hin as ((Hu & Hf & Hd) & Hn).
    specialize (Hall n Hn Hu Hf). lia.
Qed.

(** The rows of the pipeline's result. *)
Lemma elem_of_pipeline p :
  p ∈ pipeline db currentDateTime cutoffHours clearance ↔
    ∃ j dev,
      j ∈ candidates db
      ∧ Rows.hoursUntilBirthday (addBirthdayFields currentDateTime j)
        ≤ cutoffHours
      ∧ List.length (recentNotifications db clearance
                       (addBirthdayFields currentDateTime j)) = 0%nat
      ∧ deviceOf db j dev
      ∧ p = project (addBirthdayFields currentDateTime j, dev).
Proof.
  unfold pipeline. rewrite list_elem_of_fmap. split.
  - intros ([r dev] & -> & Hin).
    apply elem_of_lookupDevice in Hin as (Hin & Hdev).
    apply list_elem_of_filter in Hin; destruct Hin as (Hrecent & Hin).
    apply list_elem_of_filter in Hin; destruct Hin as (Hcut & Hin).
    apply list_elem_of_fmap in Hin as (j & Heq & Hj). subst r.
    exists j, dev. by split_and!.
  - intros (j & dev & Hj & Hcut & Hrecent & Hdev & ->).
    exists (addBirthdayFields currentDateTime j, dev). split; [done|].
    apply elem_of_lookupDevice. split; [|done].
    apply list_elem_of_filter. split; [done|].
    apply list_elem_of_filter. split; [done|].
    apply list_elem_of_fmap. by exists j.
Qed.

(** Every row has some device entry to be paired with. *)
Lemma deviceOf_exists j : ∃ dev, deviceOf db j dev.
Proof.
  destruct (filter (λ d, DeviceInfo.userId d = User._id (Rows.root j))
                   (deviceinfos db)) as [|d ds] eqn:Hds.
  - exists None. intros d Hd Heq.
    exact (filter_nil_not_elem_of _ _ d Hds Heq Hd).
  - exists (Some d). assert (d ∈ d :: ds) as Hin by left.
    rewrite <- Hds in Hin. apply list_elem_of_filter in Hin. by destruct Hin.
Qed.

End PipelineFacts.

(** ** The calendar *)

Section Calendar.

(** The year of the era is recovered from the day of the era. *)
Lemma yoe_recover yoe doy :
  0 <= yoe < 400 -> 0 <= doy <= 365 ->
  (doy = 365 -> (yoe + 1) mod 4 = 0 /\ ((yoe + 1) mod 100 <> 0 \/ yoe = 399)) ->
  let doe := yoe * 365 + yoe / 4 - yoe / 100 + doy in
  (doe - doe / 1460 + doe / 36524 - doe / 146096) / 365 = yoe /\ 0 <= doe < 146097.
Proof.
  intros Hy Hd Hl doe. subst doe.
  Z.to_euclidean_division_equations. lia.
Qed.

(** [civilFromDays] on a day number given by era, year of the era and
    day of the year (both counted from the first of March). *)
Lemma civilFromDays_parts era yoe doy :
  0 <= yoe < 400 -> 0 <= doy <= 365 ->
  (doy = 365 -> (yoe + 1) mod 4 = 0 /\ ((yoe + 1) mod 100 <> 0 \/ yoe = 399)) ->
  civilFromDays (era * 146097 + (yoe * 365 + yoe / 4 - yoe / 100 + doy) - 719468)
  = let mp := (5 * doy + 2) / 153 in
    let m := if mp <? 10 then mp + 3 else mp - 9 in
    (if m <=? 2 then yoe + era * 400 + 1 else yoe + era * 400,
     m, doy - (153 * mp + 2) / 5 + 1).
Proof.
  intros Hy Hd Hl. destruct (yoe_recover yoe doy Hy Hd Hl) as [Hyoe Hdoe].
  unfold civilFromDays.
  set (doe := yoe * 365 + yoe / 4 - yoe / 100 + doy) in *.
  replace (era * 146097 + doe - 719468 + 719468) with (doe + era * 146097) by lia.
  rewrite Z.div_add by lia. rewrite (Z.div_small doe) by lia.
  replace (doe + era * 146097 - (0 + era) * 146097) with doe by lia.
  cbv zeta in Hyoe. rewrite Hyoe.
  replace (doe - (365 * yoe + yoe / 4 - yoe / 100)) with doy by (unfold doe; lia).
  reflexivity.
Qed.


Lemma isLeapYear_true y :
  isLeapYear y = true -> y mod 4 = 0 /\ (y mod 100 <> 0 \/ y mod 400 = 0).
Proof.
  unfold isLeapYear. intros H.
  apply Bool.orb_true_iff in H as [H | H].
  - apply Bool.andb_true_iff in H as [H4 H100].
    apply Z.eqb_eq in H4. apply Bool.negb_true_iff, Z.eqb_neq in H100. lia.
  - apply Z.eqb_eq in H. split; [|lia].
    revert H. Z.to_euclidean_division_equations. lia.
Qed.

(** One month of the round trip: [mp] is the month counted from March. *)
Lemma civil_roundtrip_month y' d mp len :
  0 <= mp <= 11 -> 1 <= d <= len ->
  (153 * mp + 2) / 5 + len <= 366 ->
  (153 * mp + 2) / 5 + len <= (153 * (mp + 1) + 2) / 5 ->
  (mp = 11 -> d = 29 -> (y' + 1) mod 4 = 0 /\ ((y' + 1) mod 100 <> 0 \/ (y' + 1) mod 400 = 0)) ->
  civilFromDays
    (y' / 400 * 146097
     + ((y' - y' / 400 * 400) * 365 + (y' - y' / 400 * 400) / 4
        - (y' - y' / 400 * 400) / 100 + ((153 * mp + 2) / 5 + d - 1)) - 719468)
  = (if mp <? 10 then y' else y' + 1, if mp <? 10 then mp + 3 else mp - 9, d).
Proof.
  intros Hmp Hd Hlen366 Hlen Hleap.
  assert (mp = 0 \/ mp = 1 \/ mp = 2 \/ mp = 3 \/ mp = 4 \/ mp = 5 \/ mp = 6
          \/ mp = 7 \/ mp = 8 \/ mp = 9 \/ mp = 10 \/ mp = 11) as Hc by lia.
  rewrite civilFromDays_parts.
  - cbv zeta.
    assert ((5 * ((153 * mp + 2) / 5 + d - 1) + 2) / 153 = mp) as ->.
    { repeat destruct Hc as [Hc | Hc]; subst mp;
        Z.to_euclidean_division_equations; lia. }
    destruct (Z.ltb_spec mp 10).
    + destruct (Z.leb_spec (mp + 3) 2); [lia|].
      f_equal; [f_equal|]; Z.to_euclidean_division_equations; lia.
    + destruct (Z.leb_spec (mp - 9) 2); [|lia].
      f_equal; [f_equal|]; Z.to_euclidean_division_equations; lia.
  - Z.to_euclidean_division_equations; lia.
  - repeat destruct Hc as [Hc | Hc]; subst mp;
      Z.to_euclidean_division_equations; lia.
  - intros H365.
    assert (mp = 11 /\ d = 29) as [-> ->].
    { repeat destruct Hc as [Hc | Hc]; subst mp;
        revert H365; Z.to_euclidean_division_equations; lia. }
    destruct Hleap as [H4 H100]; [reflexivity|reflexivity|].
    revert H4 H100. Z.to_euclidean_division_equations. lia.
Qed.

Lemma daysInMonth_cases y m :
  1 <= m <= 12 ->
  (m = 2 /\ daysInMonth y m = (if isLeapYear y then 29 else 28))
  \/ ((m = 4 \/ m = 6 \/ m = 9 \/ m = 11) /\ daysInMonth y m = 30)
  \/ ((m = 1 \/ m = 3 \/ m = 5 \/ m = 7 \/ m = 8 \/ m = 10 \/ m = 12)
      /\ daysInMonth y m = 31).
Proof.
  intros Hm. unfold daysInMonth.
  assert (m = 1 \/ m = 2 \/ m = 3 \/ m = 4 \/ m = 5 \/ m = 6 \/ m = 7 \/ m = 8
          \/ m = 9 \/ m = 10 \/ m = 11 \/ m = 12) as Hc by lia.
  repeat destruct Hc as [Hc | Hc]; subst m; cbn [Z.eqb Pos.eqb orb]; lia.
Qed.

(** [civilFromDays] inverts [daysFromCivil] on the dates of the calendar. *)
Lemma civil_roundtrip y m d :
  1 <= m <= 12 -> 1 <= d <= daysInMonth y m ->
  civilFromDays (daysFromCivil y m d) = (y, m, d).
Proof.
  intros Hm Hd. pose proof (daysInMonth_cases y m Hm) as Hlen.
  unfold daysFromCivil. destruct (Z.leb_spec m 2); cbv zeta.
  - rewrite (civil_roundtrip_month (y - 1) d (m + 9) (daysInMonth y m)).
    + destruct (Z.ltb_spec (m + 9) 10); [lia|].
      replace (y - 1 + 1) with y by lia. replace (m + 9 - 9) with m by lia.
      reflexivity.
    + lia.
    + lia.
    + destruct (isLeapYear y); Z.to_euclidean_division_equations; lia.
    + destruct (isLeapYear y); Z.to_euclidean_division_equations; lia.
    + intros Hmp ->. replace (y - 1 + 1) with y by lia.
      apply isLeapYear_true.
      destruct (isLeapYear y); [reflexivity | lia].
  - rewrite (civil_roundtrip_month y d (m - 3) (daysInMonth y m)).
    + destruct (Z.ltb_spec (m - 3) 10); [|lia].
      replace (m - 3 + 3) with m by lia. reflexivity.
    + lia.
    + lia.
    + Z.to_euclidean_division_equations; lia.
    + Z.to_euclidean_division_equations; lia.
    + lia.
Qed.

(** Every day number has a month from 1 to 12 and a day from 1 to 31. *)
Lemma civilFromDays_range z :
  1 <= snd (fst (civilFromDays z)) <= 12 /\ 1 <= snd (civilFromDays z) <= 31.
Proof.
  unfold civilFromDays. cbv zeta. cbn [fst snd].
  set (doe := z + 719468 - (z + 719468) / 146097 * 146097).
  assert (0 <= doe < 146097) as Hdoe
    by (subst doe; Z.to_euclidean_division_equations; lia).
  clearbody doe.
  set (yoe := (doe - doe / 1460 + doe / 36524 - doe / 146096) / 365).
  assert (0 <= yoe < 400
          /\ 0 <= doe - (365 * yoe + yoe / 4 - yoe / 100) <= 365) as [Hyoe Hdoy]
    by (subst yoe; Z.to_euclidean_division_equations; lia).
  clearbody yoe.
  set (doy := doe - (365 * yoe + yoe / 4 - yoe / 100)) in *. clearbody doy.
  set (mp := (5 * doy + 2) / 153).
  assert (0 <= mp <= 11 /\ 1 <= doy - (153 * mp + 2) / 5 + 1 <= 31) as [Hmp Hd]
    by (subst mp; Z.to_euclidean_division_equations; lia).
  clearbody mp.
  split; [|lia]. destruct (Z.ltb_spec mp 10); lia.
Qed.

End Calendar.

(** ** The Resolver *)

Lemma emit_nil w : emit w [] [] = w.
Proof. destruct w. unfold emit. simpl. by rewrite !app_nil_r. Qed.

Lemma emit_emit w l1 r1 l2 r2 :
  emit (emit w l1 r1) l2 r2 = emit w (l1 ++ l2) (r1 ++ r2).
Proof. unfold emit. simpl. by rewrite !app_assoc. Qed.

Lemma getApproachingBirthdays_connected w db cutoffHours hours :
  mongo w = Connected db →
  getApproachingBirthdays cutoffHours hours w
  = (Normal (tuple <$> pipeline db (now w) cutoffHours
                         (now w - hours * 3600000)), w).
Proof.
  intros Hdb.
  unfold getApproachingBirthdays, try_catch, mbind, JS_bind, getWorld,
    aggregate. simpl. by rewrite Hdb.
Qed.

Lemma getApproachingBirthdays_failing w e cutoffHours hours :
  mongo w = Failing e →
  getApproachingBirthdays cutoffHours hours w
  = (Normal [], emit w [console_error e] []).
Proof.
  intros Hdb. destruct w; simpl in Hdb; subst.
  unfold emit. simpl. by rewrite app_nil_r.
Qed.

(** The tuples [getApproachingBirthdays] returns on a working
    connection. *)
Lemma elem_of_getApproachingBirthdays w db cutoffHours hours t :
  mongo w = Connected db →
  (∃ l, (getApproachingBirthdays cutoffHours hours w).1 = Normal l ∧ t ∈ l) ↔
  ∃ j dev,
    j ∈ candidates db
    ∧ Rows.hoursUntilBirthday (addBirthdayFields (now w) j) ≤ cutoffHours
    ∧ List.length (recentNotifications db (now w - hours * 3600000)
                     (addBirthdayFields (now w) j)) = 0%nat
    ∧ deviceOf db j dev
    ∧ t = tuple (project (addBirthdayFields (now w) j, dev)).
Proof.
  intros Hdb. rewrite (getApproachingBirthdays_connected _ db) by done.
  simpl. split.
  - intros (l & [= <-] & Ht).
    apply list_elem_of_fmap in Ht as (p & Ht & Hp). subst t.
    apply elem_of_pipeline in Hp as (j & dev & ? & ? & ? & ? & ->).
    by exists j, dev.
  - intros (j & dev & ? & ? & ? & ? & ->). eexists. split; [done|].
    apply list_elem_of_fmap. eexists. split; [done|].
    apply elem_of_pipeline. by exists j, dev.
Qed.

Lemma matchWithinCutoff_boundary cutoffHours rows r :
  (r ∈ rows → Rows.hoursUntilBirthday r = cutoffHours →
   r ∈ matchWithinCutoff cutoffHours rows)
  ∧ (Rows.hoursUntilBirthday r = cutoffHours + 1 →
     r ∉ matchWithinCutoff cutoffHours rows).
Proof.
  unfold matchWithinCutoff. split.
  - intros Hr Hh. apply list_elem_of_filter. split; [lia|done].
  - intros Hh Hin. apply list_elem_of_filter in Hin. lia.
Qed.

(** C4: the cutoff filter keeps a row whose birthday is exactly
    [cutoffHours] hours away and drops one that is [cutoffHours + 1]
    hours away; so the tuple of a (user, friend) pair at exactly
    [cutoffHours], not suppressed by a recent notification, is in the
    result of [getApproachingBirthdays], and the tuple of a pair at
    [cutoffHours + 1] is not. *)
Theorem cutoff_boundary_inclusive w db cutoffHours hours j :
  mongo w = Connected db →
  j ∈ candidates db →
  let r := addBirthdayFields (now w) j in
  let result := (getApproachingBirthdays cutoffHours hours w).1 in
  (∀ rows, r ∈ rows → Rows.hoursUntilBirthday r = cutoffHours →
           r ∈ matchWithinCutoff cutoffHours rows)
  ∧ (∀ rows, Rows.hoursUntilBirthday r = cutoffHours + 1 →
             r ∉ matchWithinCutoff cutoffHours rows)
  ∧ (Rows.hoursUntilBirthday r = cutoffHours →
     List.length (recentNotifications db (now w - hours * 3600000) r) = 0%nat →
     ∃ l dev, result = Normal l ∧ tuple (project (r, dev)) ∈ l
              ∧ hoursUntil (tuple (project (r, dev))) = cutoffHours)
  ∧ (Rows.hoursUntilBirthday r = cutoffHours + 1 →
     ∃ l, result = Normal l ∧ ∀ dev, tuple (project (r, dev)) ∉ l).
Proof.
  intros Hdb Hj r result. split_and!.
  - intros rows. apply matchWithinCutoff_boundary.
  - intros rows. apply matchWithinCutoff_boundary.
  - intros Hh Hrecent. destruct (deviceOf_exists db j) as [dev Hdev].
    destruct (proj2 (elem_of_getApproachingBirthdays w db cutoffHours hours
                       (tuple (project (r, dev))) Hdb)) as (l & Hl & Hin).
    { exists j, dev. subst r. split_and!; [done| |done|done|done].
      rewrite Hh. lia. }
    by exists l, dev.
  - intros Hh. subst result.
    rewrite (getApproachingBirthdays_connected _ db) by done.
    eexists. split; [done|]. intros dev Hin.
    apply list_elem_of_fmap in Hin as (p & Ht & Hp).
    apply elem_of_pipeline in Hp as (j' & dev' & _ & Hcut & _ & _ & ->).
    apply (f_equal hoursUntil) in Ht.
    cbn [hoursUntil tuple project Rows.hoursUntil fst] in Ht. lia.
Qed.

(** C5: among the (user, friend) pairs that reach the suppression check,
    a pair has no tuple in the result exactly when some notification of
    the pair has [dateSent] strictly greater than
    [now - lastNotificationClearance] hours; a notification sent one
    minute after that threshold suppresses the pair, one sent one minute
    before it does not. *)
Theorem clearance_boundary_exclusive w db cutoffHours hours j :
  mongo w = Connected db →
  j ∈ candidates db →
  Rows.hoursUntilBirthday (addBirthdayFields (now w) j) ≤ cutoffHours →
  let threshold := now w - hours * 3600000 in
  let sent n :=
    n ∈ notifications db
    ∧ Notification.userId n = UserProfile.user (Rows.userProfile j)
    ∧ Notification.friendId n = Friend._id (Rows.friends j) in
  let included :=
    ∃ l t, (getApproachingBirthdays cutoffHours hours w).1 = Normal l
           ∧ t ∈ l
           ∧ userId t = UserProfile.user (Rows.userProfile j)
           ∧ friendId t = Friend._id (Rows.friends j) in
  (¬ included ↔ ∃ n, sent n ∧ Notification.dateSent n > threshold)
  ∧ (∀ n, sent n → Notification.dateSent n = threshold + 60000 →
          ¬ included)
  ∧ ((∀ n, sent n → Notification.dateSent n = threshold - 60000) →
     included).
Proof.
  intros Hdb Hj Hcut threshold sent included.
  assert ((∃ n, sent n ∧ Notification.dateSent n > threshold) → ¬ included)
    as Hsuppressed.
  { intros (n & (Hn & Hu & Hf) & Hd) (l & t & Hl & Ht & Htu & Htf).
    destruct (proj1 (elem_of_getApproachingBirthdays w db cutoffHours hours t
                       Hdb)) as (j' & dev & _ & _ & Hrecent & _ & ->);
      [by exists l|].
    cbn [userId friendId tuple project Rows.userId Rows.friendId fst
           ObjectId_toString addBirthdayFields Rows.base] in Htu, Htf.
    pose proof (proj1 (recentNotifications_size_0 db threshold _) Hrecent n Hn)
      as Hle.
    cbn [addBirthdayFields Rows.base] in Hle.
    rewrite Htu, Htf in Hle. specialize (Hle Hu Hf). lia. }
  assert ((∀ n, sent n → Notification.dateSent n ≤ threshold) → included)
    as Hincluded.
  { intros Hall. destruct (deviceOf_exists db j) as [dev Hdev].
    destruct (proj2 (elem_of_getApproachingBirthdays w db cutoffHours hours
                       (tuple (project (addBirthdayFields (now w) j, dev)))
                       Hdb)) as (l & Hl & Hin).
    { exists j, dev. split_and!; [done|done| |done|done].
      apply recentNotifications_size_0. intros n Hn Hu Hf.
      by apply Hall. }
    by exists l, (tuple (project (addBirthdayFields (now w) j, dev))). }
  split_and!.
  - split; [|done]. intros Hnot.
    destruct (recentNotifications db threshold (addBirthdayFields (now w) j))
      as [|n ns] eqn:Hrecent.
    + destruct Hnot. apply Hincluded. intros n Hn.
      destruct Hn as (Hn & Hu & Hf).
      eapply (proj1 (recentNotifications_size_0 db threshold
                       (addBirthdayFields (now w) j))); [|done|done|done].
      by rewrite Hrecent.
    + assert (n ∈ n :: ns) as Hin by left. rewrite <- Hrecent in Hin.
      unfold recentNotifications in Hin.
      apply list_elem_of_filter in Hin. destruct Hin as ((Hu & Hf & Hd) & Hn).
      by exists n.
  - intros n Hn Hd. apply Hsuppressed. exists n. split; [done|lia].
  - intros Hall. apply Hincluded. intros n Hn. specialize (Hall n Hn). lia.
Qed.


(** C9: when the query fails, [getApproachingBirthdays] logs the error
    and returns the empty list; it never ends with an error, and what it
    returns on a failing connection is what it returns on a working one
    with no users. *)
Theorem resolution_failure_returns_empty w e cutoffHours hours :
  mongo w = Failing e →
  getApproachingBirthdays cutoffHours hours w
    = (Normal [], emit w [console_error e] [])
  ∧ (∀ w', ∃ l, (getApproachingBirthdays cutoffHours hours w').1 = Normal l)
  ∧ (∀ w' db, mongo w' = Connected db → users db = [] →
              (getApproachingBirthdays cutoffHours hours w').1
              = (getApproachingBirthdays cutoffHours hours w).1).
Proof.
  intros Hdb. split_and!.
  - by apply getApproachingBirthdays_failing.
  - intros w'. destruct (mongo w') as [db|e'] eqn:Hw'.
    + rewrite (getApproachingBirthdays_connected _ db) by done. by eexists.
    + rewrite (getApproachingBirthdays_failing _ e') by done. by eexists.
  - intros w' db Hw' Husers.
    rewrite (getApproachingBirthdays_connected _ db) by done.
    rewrite (getApproachingBirthdays_failing _ e) by done.
    unfold pipeline, lookupUserProfile. by rewrite Husers.
Qed.

(** ** The birthday occurrence *)

Transparent dateFromParts dateDiffHour year month dayOfMonth.

Lemma month_dayOfMonth_valid t :
  1 ≤ month t ≤ 12 ∧ 1 ≤ dayOfMonth t ≤ 31.
Proof. unfold month, dayOfMonth. apply civilFromDays_range. Qed.

(** The month and the day of a date do not depend on its time of day. *)
Lemma month_dayOfMonth_same_day t t' :
  t' / msPerDay = t / msPerDay →
  month t' = month t ∧ dayOfMonth t' = dayOfMonth t.
Proof. intros Hsame. unfold month, dayOfMonth. by rewrite Hsame. Qed.

(** The zone's clock reads midnight at the instant [$dateFromParts]
    builds. *)
Lemma dateFromParts_toLocal y m d tz :
  toLocal tz (dateFromParts y m d tz) = daysFromCivil y m d * msPerDay.
Proof. unfold toLocal, dateFromParts. lia. Qed.

Lemma dateFromParts_timeOfDay y m d tz :
  timeOfDay tz (dateFromParts y m d tz) = 0.
Proof.
  unfold timeOfDay. rewrite dateFromParts_toLocal.
  apply Z.mod_mul. unfold msPerDay. lia.
Qed.

(** On a date of the calendar, the zone's calendar shows the year, month
    and day [$dateFromParts] was given. *)
Lemma dateFromParts_civil y m d tz :
  1 ≤ m ≤ 12 → 1 ≤ d ≤ daysInMonth y m →
  civilFromDays (toLocal tz (dateFromParts y m d tz) / msPerDay) = (y, m, d).
Proof.
  intros Hm Hd. rewrite dateFromParts_toLocal.
  rewrite Z.div_mul by (unfold msPerDay; lia).
  by apply civil_roundtrip.
Qed.

(** To an end at a full hour of the zone's clock, [$dateDiff] in hours is
    the elapsed time rounded up to whole hours. *)
Lemma dateDiffHour_to_full_hour startDate endDate tz :
  toLocal tz endDate mod msPerHour = 0 →
  msPerHour * (dateDiffHour startDate endDate tz - 1) < endDate - startDate
  ∧ endDate - startDate ≤ msPerHour * dateDiffHour startDate endDate tz.
Proof.
  unfold dateDiffHour, toLocal, msPerHour, msPerMinute.
  intros Hfull. revert Hfull. Z.to_euclidean_division_equations. lia.
Qed.

Lemma timeOfDay_full_hour tz t :
  timeOfDay tz t = 0 → toLocal tz t mod msPerHour = 0.
Proof.
  unfold timeOfDay, msPerDay, msPerHour.
  Z.to_euclidean_division_equations. lia.
Qed.

Opaque dateFromParts dateDiffHour year month dayOfMonth.


(** ** Computations that only print and send *)

Section Emits.

Context {A B : Type}.

Lemma Emits_mret (a : A) : Emits (mret a) (Normal a) [] [].
Proof. intros w. by rewrite emit_nil. Qed.

Lemma Emits_throw (e : Error) : Emits (throw (A:=A) e) (Throw e) [] [].
Proof. intros w. by rewrite emit_nil. Qed.

Lemma Emits_await (c : Completion A) : Emits (await c) c [] [].
Proof. intros w. by rewrite emit_nil. Qed.

Lemma Emits_bind (m : JS A) (f : A → JS B) a c l1 r1 l2 r2 :
  Emits m (Normal a) l1 r1 → Emits (f a) c l2 r2 →
  Emits (m ≫= f) c (l1 ++ l2) (r1 ++ r2).
Proof.
  intros Hm Hf w. unfold mbind, JS_bind. rewrite Hm, Hf.
  by rewrite emit_emit.
Qed.

Lemma Emits_bind_throw (m : JS A) (f : A → JS B) e l r :
  Emits m (Throw e) l r → Emits (m ≫= f) (Throw e) l r.
Proof. intros Hm w. unfold mbind, JS_bind. by rewrite Hm. Qed.

Lemma Emits_try (m : JS A) (handler : Error → JS A) a l r :
  Emits m (Normal a) l r → Emits (try_catch m handler) (Normal a) l r.
Proof. intros Hm w. unfold try_catch. by rewrite Hm. Qed.

Lemma Emits_catch (m : JS A) (handler : Error → JS A) e c l1 r1 l2 r2 :
  Emits m (Throw e) l1 r1 → Emits (handler e) c l2 r2 →
  Emits (try_catch m handler) c (l1 ++ l2) (r1 ++ r2).
Proof.
  intros Hm Hh w. unfold try_catch. rewrite Hm, Hh. by rewrite emit_emit.
Qed.

End Emits.

Lemma Emits_print line : Emits (print line) (Normal ()) [line] [].
Proof. intros w. unfold print, emit. by rewrite app_nil_r. Qed.

Lemma Emits_request r : Emits (request r) (Normal ()) [] [r].
Proof. intros w. unfold request, emit. by rewrite app_nil_r. Qed.

Lemma Pure_getProperty v key : Pure (getProperty v key).
Proof.
  destruct v; eexists; first [apply Emits_throw | apply Emits_mret].
Qed.

Lemma Pure_iterate v : Pure (iterate v).
Proof.
  destruct v; eexists; first [apply Emits_throw | apply Emits_mret].
Qed.

Lemma Pure_JSON_parse text : Pure (JSON_parse text).
Proof.
  unfold JSON_parse. destruct (JSON.parse _); eexists;
    first [apply Emits_throw | apply Emits_mret].
Qed.

(** Binding a pure computation. *)
Lemma Emits_bind_pure {A B} (m : JS A) (f : A → JS B) :
  Pure m →
  (∀ a, ∃ c l r, Emits (f a) c l r) →
  ∃ c l r, Emits (m ≫= f) c l r
           ∧ ((∃ e, c = Throw e ∧ l = [] ∧ r = [])
              ∨ ∃ a, Emits m (Normal a) [] [] ∧ Emits (f a) c l r).
Proof.
  intros [[a|e] Hm] Hf.
  - destruct (Hf a) as (c & l & r & Hfa). exists c, l, r. split.
    + apply (Emits_bind m f a c [] [] l r); done.
    + right. by exists a.
  - exists (Throw e), [], []. split.
    + by apply Emits_bind_throw.
    + left. by exists e.
Qed.

Lemma Pure_collectReceiptIds tickets receiptIds :
  Pure (collectReceiptIds tickets receiptIds).
Proof.
  revert receiptIds. induction tickets as [|ticket rest IH]; intros acc.
  - eexists. apply Emits_mret.
  - cbn [collectReceiptIds].
    destruct (Pure_getProperty ticket "id") as [[id|e] Hid].
    + assert (Pure (match id with
                    | Some v =>
                        if truthy id
                        then collectReceiptIds rest (acc ++ [v])
                        else collectReceiptIds rest acc
                    | None => collectReceiptIds rest acc
                    end)) as [c Hc]
        by (destruct id; [destruct (truthy _)|]; apply IH).
      exists c. apply (Emits_bind _ _ id c [] [] [] []); done.
    + exists (Throw e). by apply Emits_bind_throw.
Qed.

(** ** The Reconciler *)

Opaque truthy isString lookupMember.

(** Unfolds the operations of [JS] and splits on the tests that do not
    depend on the world. *)
Ltac js_unfold :=
  unfold Emits, mbind, mret, JS_bind, JS_ret, print, throw, await, request,
    try_catch.

Ltac js_cases :=
  repeat (js_unfold; cbn -[emit];
          match goal with
          | |- context [if ?b then _ else _] => destruct b eqn:?
          | |- context [match ?x with _ => _ end] => destruct x eqn:?
          end).

(** Closes [m w = (c, emit w ?lines ?reqs)] once [m w] has been
    computed. *)
Ltac emit_eq :=
  let w := fresh "w" in
  intros w; destruct w; unfold emit; cbn; rewrite <- ?app_assoc; cbn;
  repeat first [ reflexivity | symmetry; apply app_nil_r | f_equal ].

Lemma classifyReceipt_emits receipt :
  ∃ c l, Emits (classifyReceipt receipt) c l [].
Proof.
  destruct receipt as [r|]; [destruct r|].
  all: unfold classifyReceipt, getProperty; js_cases.
  all: eexists _, _; emit_eq.
Qed.

Lemma forEachReceipt_emits receiptIds receipts :
  ∃ c l, Emits (forEachReceipt receiptIds receipts) c l [].
Proof.
  induction receiptIds as [|receiptId rest (c2 & l2 & IH)].
  - eexists _, _. apply Emits_mret.
  - cbn [forEachReceipt].
    destruct (classifyReceipt_emits (lookupMember receiptId receipts))
      as ([[]|e] & l1 & H1).
    + exists c2, (l1 ++ l2).
      exact (Emits_bind _ _ () c2 l1 [] l2 [] H1 IH).
    + exists (Throw e), l1. by apply Emits_bind_throw.
Qed.

(** One turn of the polling loop ends normally and sends one request; a
    rejected poll is printed. *)
Lemma pollChunk_emits expo chunk :
  ∃ l,
    Emits (try_catch
             (request (GetReceipts chunk);;
              receipts ← await (getPushNotificationReceiptsAsync expo chunk);
              print (console_log (JSON.JObject receipts));;
              forEachReceipt receipts.*1 receipts)
             (λ error, print (console_error error)))
          (Normal ()) l [GetReceipts chunk]
    ∧ ∀ e, getPushNotificationReceiptsAsync expo chunk = Throw e →
           console_error e ∈ l.
Proof.
  destruct (getPushNotificationReceiptsAsync expo chunk)
    as [receipts|e] eqn:Hanswer.
  - destruct (forEachReceipt_emits receipts.*1 receipts) as ([[]|e] & l & Hl).
    + eexists. split; [|done]. apply Emits_try.
      eapply (Emits_bind _ _ () _ [] [GetReceipts chunk] _ []);
        [apply Emits_request|].
      eapply (Emits_bind _ _ receipts _ [] [] _ []); [apply Emits_await|].
      eapply (Emits_bind _ _ () _ _ [] _ []); [apply Emits_print|].
      exact Hl.
    + eexists. split; [|done].
      eapply (Emits_catch _ _ e _ _ [GetReceipts chunk] _ []);
        [|apply Emits_print].
      eapply (Emits_bind _ _ () _ [] [GetReceipts chunk] _ []);
        [apply Emits_request|].
      eapply (Emits_bind _ _ receipts _ [] [] _ []); [apply Emits_await|].
      eapply (Emits_bind _ _ () _ _ [] _ []); [apply Emits_print|].
      exact Hl.
  - exists [console_error e]. split.
    + eapply (Emits_catch _ _ e _ [] [GetReceipts chunk] _ []);
        [|apply Emits_print].
      eapply (Emits_bind _ _ () _ [] [GetReceipts chunk] _ []);
        [apply Emits_request|].
      apply Emits_bind_throw. apply Emits_await.
    + intros e' [= <-]. by apply list_elem_of_singleton.
Qed.

(** The polling loop sends one request per chunk, in order. *)
Lemma pollReceipts_emits expo receiptIdChunks :
  ∃ l, Emits (pollReceipts expo receiptIdChunks) (Normal ()) l
             (GetReceipts <$> receiptIdChunks)
       ∧ ∀ chunk e, chunk ∈ receiptIdChunks →
                    getPushNotificationReceiptsAsync expo chunk = Throw e →
                    console_error e ∈ l.
Proof.
  induction receiptIdChunks as [|chunk rest (l2 & IH & Hlogged2)].
  - eexists. split; [apply Emits_mret|]. intros ? ? Hin.
    by apply elem_of_nil in Hin.
  - cbn [pollReceipts].
    destruct (pollChunk_emits expo chunk) as (l1 & H1 & Hlogged1).
    exists (l1 ++ l2). split.
    + exact (Emits_bind _ _ () _ l1 [GetReceipts chunk] l2 _ H1 IH).
    + intros chunk' e Hin Hanswer. apply elem_of_app.
      apply elem_of_cons in Hin as [->|Hin]; [left|right]; eauto.
Qed.

Lemma JSON_parse_undefined : JSON.parse "undefined" = None.
Proof. reflexivity. Qed.

Lemma JSON_stringify_empty_array : JSON.stringify (JSON.JArray []) = "[]".
Proof. reflexivity. Qed.

Lemma JSON_parse_empty_array : JSON.parse "[]" = Some (JSON.JArray []).
Proof. reflexivity. Qed.

(** [handleExpoReceipts] reads the cache once; what it then prints and
    polls depends on the cached text alone, and it ends normally, with
    every rejected poll printed. *)
Lemma handleExpoReceipts_emits expo cached :
  ∃ lines polls,
    Forall isGetReceipts polls
    ∧ (∀ chunk e, GetReceipts chunk ∈ polls →
                  getPushNotificationReceiptsAsync expo chunk = Throw e →
                  console_error e ∈ lines)
    ∧ ∀ identifier w,
        ticketCache w !! identifier = cached →
        handleExpoReceipts expo identifier w = (Normal (), emit w lines polls).
Proof.
  assert (∃ c lines polls,
            Forall isGetReceipts polls
            ∧ (∀ chunk e, GetReceipts chunk ∈ polls →
                          getPushNotificationReceiptsAsync expo chunk = Throw e →
                          console_error e ∈ lines)
            ∧ Emits (tickets ← JSON_parse cached;
                     items ← iterate tickets;
                     receiptIds ← collectReceiptIds items [];
                     pollReceipts expo
                       (chunkPushNotificationReceiptIds expo receiptIds))
                    c lines polls)
    as (c & lines & polls & Hpolls & Hlogged & Hbody).
  { assert (∀ chunk e, GetReceipts chunk ∈ [] →
                       getPushNotificationReceiptsAsync expo chunk = Throw e →
                       console_error e ∈ []) as Hnone
      by (intros ? ? Hin; by apply elem_of_nil in Hin).
    destruct (Pure_JSON_parse cached) as [[tickets|e] Hparse];
      [|exists (Throw e), [], []; split_and!;
         [constructor | done | by apply Emits_bind_throw]].
    destruct (Pure_iterate tickets) as [[items|e] Hitems];
      [|exists (Throw e), [], []; split_and!; [constructor|done|];
        eapply (Emits_bind _ _ tickets _ [] [] [] []); [done|];
        by apply Emits_bind_throw].
    destruct (Pure_collectReceiptIds items []) as [[receiptIds|e] Hids];
      [|exists (Throw e), [], []; split_and!; [constructor|done|];
        eapply (Emits_bind _ _ tickets _ [] [] [] []); [done|];
        eapply (Emits_bind _ _ items _ [] [] [] []); [done|];
        by apply Emits_bind_throw].
    destruct (pollReceipts_emits expo
                (chunkPushNotificationReceiptIds expo receiptIds))
      as (l & Hl & Hlogged).
    exists (Normal ()), l,
      (GetReceipts <$> chunkPushNotificationReceiptIds expo receiptIds).
    split_and!.
    - apply Forall_fmap, Forall_forall. by intros ? _.
    - intros chunk e Hin. apply list_elem_of_fmap in Hin as (c' & Heq & Hin).
      injection Heq as ->. by apply Hlogged.
    - eapply (Emits_bind _ _ tickets _ [] [] _ _); [done|].
      eapply (Emits_bind _ _ items _ [] [] _ _); [done|].
      eapply (Emits_bind _ _ receiptIds _ [] [] _ _); [done|]. done. }
  assert (∀ identifier w,
            handleExpoReceipts expo identifier w
            = try_catch
                (tickets ← JSON_parse (ticketCache w !! identifier);
                 items ← iterate tickets;
                 receiptIds ← collectReceiptIds items [];
                 pollReceipts expo
                   (chunkPushNotificationReceiptIds expo receiptIds))
                (λ error, print (console_error error)) w) as Hunfold
    by reflexivity.
  destruct c as [[]|e].
  - exists lines, polls. split_and!; [done|done|].
    intros identifier w Hcached.
    rewrite Hunfold, Hcached. by apply Emits_try.
  - exists (lines ++ [console_error e]), polls. split_and!; [done| |].
    + intros chunk e' Hin Hanswer. apply elem_of_app. left. eauto.
    + intros identifier w Hcached. rewrite Hunfold, Hcached.
      pose proof (Emits_catch _ (λ error, print (console_error error)) e _
                    lines polls [console_error e] [] Hbody
                    (Emits_print (console_error e)) w) as Hrun.
      by rewrite app_nil_r in Hrun.
Qed.

(** The reconciler on a key that is not in the cache: [JSON.parse]
    throws on [undefined]; the error is caught and printed. *)
Lemma handleExpoReceipts_absent expo identifier w :
  ticketCache w !! identifier = None →
  handleExpoReceipts expo identifier w
  = (Normal (),
     emit w [console_error (SyntaxError "Unexpected token in JSON")] []).
Proof.
  intros Habsent.
  change (handleExpoReceipts expo identifier w)
    with (try_catch
            (tickets ← JSON_parse (ticketCache w !! identifier);
             items ← iterate tickets;
             receiptIds ← collectReceiptIds items [];
             pollReceipts expo
               (chunkPushNotificationReceiptIds expo receiptIds))
            (λ error, print (console_error error)) w).
  rewrite Habsent. unfold JSON_parse. cbn [default].
  rewrite JSON_parse_undefined.
  apply (Emits_catch _ (λ error, print (console_error error))
           (SyntaxError "Unexpected token in JSON") _ [] [] _ []).
  - apply Emits_bind_throw, Emits_throw.
  - apply Emits_print.
Qed.

(** C3, as the code has it: on a batch identifier that is not in the
    cache the reconciler ends normally, polls nothing and leaves the
    cache as it is, but prints the [SyntaxError] of [JSON.parse]; and it
    never removes or changes a cache entry, so reconciling any identifier
    a second time prints and polls exactly what the first time did. *)
Theorem reconcile_absent_batch expo identifier w :
  ticketCache w !! identifier = None →
  (handleExpoReceipts expo identifier w).1 = Normal ()
  ∧ requests (handleExpoReceipts expo identifier w).2 = requests w
  ∧ ticketCache (handleExpoReceipts expo identifier w).2 = ticketCache w
  ∧ console (handleExpoReceipts expo identifier w).2
    = console w ++ [console_error (SyntaxError "Unexpected token in JSON")]
  ∧ (∀ identifier' w', ∃ lines polls,
       Forall isGetReceipts polls
       ∧ handleExpoReceipts expo identifier' w'
         = (Normal (), emit w' lines polls)
       ∧ ticketCache (emit w' lines polls) = ticketCache w'
       ∧ handleExpoReceipts expo identifier' (emit w' lines polls)
         = (Normal (), emit (emit w' lines polls) lines polls)).
Proof.
  intros Habsent. rewrite handleExpoReceipts_absent by done.
  cbn [fst snd emit requests ticketCache console].
  split_and!; try done; [by rewrite app_nil_r|].
  intros identifier' w'.
  destruct (handleExpoReceipts_emits expo (ticketCache w' !! identifier'))
    as (lines & polls & Hpolls & _ & Hrun).
  exists lines, polls. split_and!; try done; by apply Hrun.
Qed.

(** C3 does not hold as stated: a batch that was reconciled once is still
    in the cache, and reconciling it again polls the push service again;
    and reconciling a batch that is not in the cache is not silent. *)
Lemma reconcile_again_polls_again :
  let w1 := (handleExpoReceipts Demo.expo "1" Demo.cached).2 in
  let w2 := (handleExpoReceipts Demo.expo "1" w1).2 in
  requests w1 = [GetReceipts [JSON.JString "r1"]]
  ∧ requests w2 = [GetReceipts [JSON.JString "r1"];
                   GetReceipts [JSON.JString "r1"]]
  ∧ handleExpoReceipts Demo.expo "1" w1 ≠ (Normal (), w1)
  ∧ ticketCache Demo.cached !! "2" = None
  ∧ console (handleExpoReceipts Demo.expo "2" Demo.cached).2
    ≠ console Demo.cached.
Proof.
  assert (requests (handleExpoReceipts Demo.expo "1" Demo.cached).2
          = [GetReceipts [JSON.JString "r1"]]) as H1 by (by vm_compute).
  assert (requests (handleExpoReceipts Demo.expo "1"
                      (handleExpoReceipts Demo.expo "1" Demo.cached).2).2
          = [GetReceipts [JSON.JString "r1"]; GetReceipts [JSON.JString "r1"]])
    as H2 by (by vm_compute).
  cbv zeta. split_and!; [done|done| |by vm_compute|by vm_compute].
  intros Heq. apply (f_equal (λ r, requests r.2)) in Heq.
  cbv beta in Heq. rewrite H2 in Heq. cbn [snd] in Heq. by rewrite H1 in Heq.
Qed.

(** The hypothesis of [reconcile_absent_batch] holds in the example
    world, whose cache is empty. *)
Lemma reconcile_absent_batch_witness :
  ticketCache Demo.world !! "1793574000000" = None
  ∧ (handleExpoReceipts Demo.expo "1793574000000" Demo.world).1 = Normal ()
  ∧ requests (handleExpoReceipts Demo.expo "1793574000000" Demo.world).2
    = requests Demo.world.
Proof.
  assert (ticketCache Demo.world !! "1793574000000" = None) as Habsent
    by reflexivity.
  split; [exact Habsent|].
  destruct (reconcile_absent_batch Demo.expo "1793574000000" Demo.world
              Habsent) as (Hnormal & Hrequests & _).
  split; [exact Hnormal | exact Hrequests].
Defined.

(** ** Chunks *)

Lemma concat_chunkLoop {A} limit (items chunk : list A) :
  List.concat (chunkLoop limit items chunk) = chunk ++ items.
Proof.
  revert chunk. induction items as [|item items IH]; intros chunk.
  - destruct chunk; cbn; by rewrite ?app_nil_r.
  - cbn [chunkLoop]. destruct (_ <=? _)%nat.
    + cbn [List.concat]. rewrite IH. by rewrite <- app_assoc.
    + rewrite IH. by rewrite <- app_assoc.
Qed.

(** The number of chunks, between the bounds that make it the quotient
    rounded up. *)
Lemma length_chunkLoop_bounds {A} limit (items chunk : list A) :
  (0 < limit)%nat → (List.length chunk < limit)%nat →
  let k := List.length (chunkLoop limit items chunk) in
  let n := (List.length chunk + List.length items)%nat in
  (n ≤ k * limit ∧ k * limit < n + limit)%nat.
Proof.
  intros Hlimit. revert chunk.
  induction items as [|item items IH]; intros chunk Hchunk.
  - destruct chunk; cbn [chunkLoop List.length] in *; lia.
  - cbn [chunkLoop]. rewrite length_app. cbn [List.length].
    destruct (Nat.leb_spec limit (List.length chunk + 1)).
    + specialize (IH [] ltac:(cbn; lia)). cbn [List.length] in *. lia.
    + specialize (IH (chunk ++ [item])). rewrite length_app in IH.
      cbn [List.length] in IH. specialize (IH ltac:(lia)). lia.
Qed.

Lemma length_chunkLoop {A} limit (items : list A) :
  (0 < limit)%nat →
  List.length (chunkLoop limit items []) = ceilDiv (List.length items) limit.
Proof.
  intros Hlimit.
  destruct (length_chunkLoop_bounds limit items [] Hlimit) as [Hlo Hhi];
    [cbn; lia|].
  cbn [List.length] in Hlo, Hhi. unfold ceilDiv.
  set (k := List.length (chunkLoop limit items [])) in *.
  apply (Nat.div_unique _ _ _ (List.length items + limit - 1 - k * limit));
    lia.
Qed.

(** No chunk is longer than the limit. *)
Lemma chunkLoop_length_le {A} limit (items chunk c : list A) :
  (0 < limit)%nat → (List.length chunk < limit)%nat →
  c ∈ chunkLoop limit items chunk → (0 < List.length c ≤ limit)%nat.
Proof.
  intros Hlimit. revert chunk.
  induction items as [|item items IH]; intros chunk Hchunk Hc.
  - destruct chunk; cbn [chunkLoop] in Hc; [by apply elem_of_nil in Hc|].
    apply list_elem_of_singleton in Hc. subst c. cbn [List.length] in *. lia.
  - cbn [chunkLoop] in Hc.
    destruct (Nat.leb_spec limit (List.length (chunk ++ [item])))
      as [Hfull|Hroom]; rewrite length_app in *; cbn [List.length] in *.
    + apply elem_of_cons in Hc as [->|Hc].
      * rewrite length_app. cbn. lia.
      * apply (IH []); [cbn; lia|done].
    + apply (IH (chunk ++ [item])); [rewrite length_app; cbn; lia|done].
Qed.

(** ** The Dispatcher *)

Lemma submissions_app rs1 rs2 :
  submissions (rs1 ++ rs2) = submissions rs1 ++ submissions rs2.
Proof. apply omap_app. Qed.

Lemma submissions_SendPush chunks : submissions (SendPush <$> chunks) = chunks.
Proof. induction chunks; cbn; by f_equal. Qed.

Lemma submissions_polls polls :
  Forall isGetReceipts polls → submissions polls = [].
Proof. induction 1 as [|[] ? [] ?]; by cbn. Qed.

Lemma sendNext_emits chunks :
  Emits (sendNext chunks) (Normal (suspended chunks))
        [] (SendPush <$> take 1 chunks).
Proof.
  destruct chunks as [|chunk rest]; [apply Emits_mret|].
  intros w. destruct w. unfold emit. cbn. by rewrite app_nil_r.
Qed.

Lemma resumeSend_emits expo tickets chunk rest :
  Emits (resumeSend expo tickets chunk rest)
        (Normal {| tickets := tickets ++ ticketsOf expo chunk;
                   sending := suspended rest |})
        [sendLine expo chunk] (SendPush <$> take 1 rest).
Proof.
  unfold resumeSend, ticketsOf, sendLine.
  destruct (sendPushNotificationsAsync expo chunk) as [ticketChunk|e];
    destruct rest as [|next rest];
    intros w; destruct w; unfold emit; cbn;
    by rewrite ?app_nil_r.
Qed.

(** The suspended loop runs to its end: every chunk after the first is
    submitted, one line is printed per chunk, and the tickets of the
    chunks that were accepted are pushed in order. *)
Lemma settle_emits expo rest : ∀ chunk pushed,
  Emits (settle expo (S (List.length rest))
           {| tickets := pushed; sending := AwaitingSend chunk rest |})
        (Normal {| tickets := pushed
                              ++ List.concat (ticketsOf expo <$> chunk :: rest);
                   sending := Settled |})
        (sendLine expo <$> chunk :: rest) (SendPush <$> rest).
Proof.
  induction rest as [|next rest IH]; intros chunk pushed.
  - cbn [settle sending tickets List.length].
    pose proof (Emits_bind _ (settle expo 0) _ _ _ _ [] []
                  (resumeSend_emits expo pushed chunk [])
                  (Emits_mret _)) as Hrun.
    cbn in Hrun |- *. by rewrite !app_nil_r in *.
  - cbn [settle sending tickets List.length].
    pose proof (Emits_bind _ (settle expo (S (List.length rest))) _ _ _ _ _ _
                  (resumeSend_emits expo pushed chunk (next :: rest))
                  (IH next (pushed ++ ticketsOf expo chunk))) as Hrun.
    cbn in Hrun |- *. by rewrite <- app_assoc in Hrun.
Qed.

Lemma settleAll_emits expo pushed chunks :
  Emits (settleAll expo {| tickets := pushed; sending := suspended chunks |})
        (Normal {| tickets := pushed
                              ++ List.concat (ticketsOf expo <$> chunks);
                   sending := Settled |})
        (sendLine expo <$> chunks) (SendPush <$> drop 1 chunks).
Proof.
  destruct chunks as [|chunk rest].
  - cbn. rewrite app_nil_r. apply Emits_mret.
  - apply settle_emits.
Qed.

(** What a call of [sendExpoNotifications] has done when it returns: the
    first chunk is submitted but not answered, [tickets] is still empty,
    and the empty array has been written to the cache. *)
Lemma sendExpoNotifications_run expo birthdays w :
  let chunks := chunkPushNotifications expo (pushMessages birthdays) in
  sendExpoNotifications expo birthdays w
  = (Normal {| tickets := []; sending := suspended chunks |},
     {| now := now w; mongo := mongo w;
        ticketCache := <[pretty (now w) := "[]"]> (ticketCache w);
        console := console w;
        timers := timers w ++ [{| delay := 60000;
                                  timerIdentifier := pretty (now w) |}];
        requests := requests w ++ (SendPush <$> take 1 chunks) |}).
Proof.
  intros chunks. unfold sendExpoNotifications. cbv zeta.
  fold (pushMessages birthdays). fold chunks.
  unfold mbind, JS_bind. rewrite (sendNext_emits chunks w).
  unfold emit. cbn -[pretty]. by rewrite app_nil_r.
Qed.

Lemma handleExpoReceipts_empty_batch expo identifier w :
  ticketCache w !! identifier = Some "[]" →
  handleExpoReceipts expo identifier w = (Normal (), w).
Proof.
  intros Hcached.
  change (handleExpoReceipts expo identifier w)
    with (try_catch
            (tickets ← JSON_parse (ticketCache w !! identifier);
             items ← iterate tickets;
             receiptIds ← collectReceiptIds items [];
             pollReceipts expo
               (chunkPushNotificationReceiptIds expo receiptIds))
            (λ error, print (console_error error)) w).
  rewrite Hcached. unfold JSON_parse. cbn [from_option id].
  rewrite JSON_parse_empty_array. by destruct w.
Qed.

Lemma fireTimers_emits expo due : ∀ w,
  ∃ lines polls,
    Forall isGetReceipts polls
    ∧ fireTimers expo due w = (Normal (), emit w lines polls).
Proof.
  induction due as [|t due IH]; intros w.
  - exists [], []. split; [constructor|]. by rewrite emit_nil.
  - destruct (handleExpoReceipts_emits expo
                (ticketCache w !! timerIdentifier t))
      as (l1 & p1 & Hp1 & _ & Hrun).
    destruct (IH (emit w l1 p1)) as (l2 & p2 & Hp2 & Hrest).
    exists (l1 ++ l2), (p1 ++ p2). split; [by apply Forall_app|].
    cbn [fireTimers]. unfold mbind, JS_bind.
    rewrite (Hrun _ w eq_refl), Hrest. by rewrite emit_emit.
Qed.

(** A dispatch from start to end. *)
Lemma dispatch_run expo birthdays w :
  let chunks := chunkPushNotifications expo (pushMessages birthdays) in
  ∃ lines polls,
    Forall isGetReceipts polls
    ∧ (timers w = [] → lines = [] ∧ polls = [])
    ∧ dispatch expo birthdays w
      = (Normal {| tickets := List.concat (ticketsOf expo <$> chunks);
                   sending := Settled |},
         {| now := now w; mongo := mongo w;
            ticketCache := <[pretty (now w) := "[]"]> (ticketCache w);
            console := console w ++ (sendLine expo <$> chunks) ++ lines;
            timers := [];
            requests := requests w ++ (SendPush <$> chunks) ++ polls |}).
Proof.
  intros chunks.
  set (w1 := {| now := now w; mongo := mongo w;
                ticketCache := <[pretty (now w) := "[]"]> (ticketCache w);
                console := console w ++ (sendLine expo <$> chunks);
                timers := [];
                requests := requests w ++ (SendPush <$> chunks) |}).
  assert (∃ lines polls,
            Forall isGetReceipts polls
            ∧ (timers w = [] → lines = [] ∧ polls = [])
            ∧ fireTimers expo
                (timers w ++ [{| delay := 60000;
                                 timerIdentifier := pretty (now w) |}]) w1
              = (Normal (), emit w1 lines polls))
    as (lines & polls & Hpolls & Hnone & Hfire).
  { destruct (timers w) as [|t ts] eqn:Htimers.
    - exists [], []. split_and!; [constructor|done|].
      cbn [app fireTimers timerIdentifier]. unfold mbind, JS_bind.
      rewrite handleExpoReceipts_empty_batch
        by (subst w1; cbn [ticketCache]; apply lookup_insert_eq).
      cbn [fireTimers]. by rewrite emit_nil.
    - destruct (fireTimers_emits expo
                  ((t :: ts) ++ [{| delay := 60000;
                                    timerIdentifier := pretty (now w) |}]) w1)
        as (lines & polls & Hpolls & Hfire).
      exists lines, polls. by split_and!. }
  exists lines, polls. split_and!; [done|done|].
  unfold dispatch, mbind, JS_bind.
  rewrite sendExpoNotifications_run. fold chunks.
  rewrite (settleAll_emits expo [] chunks).
  unfold runTimers, clearTimers, mbind, JS_bind, emit.
  cbn [now mongo ticketCache console timers requests app].
  rewrite <- !app_assoc, <- fmap_app, take_drop. fold w1.
  rewrite Hfire. unfold emit, w1. cbn -[pretty]. by rewrite <- !app_assoc.
Qed.

(** The text cached under the batch identifier is the empty array, when
    the call returns and when everything it set in motion is over. *)
Lemma dispatch_cache_entry expo birthdays w :
  ticketCache (sendExpoNotifications expo birthdays w).2 !! pretty (now w)
    = Some (JSON.stringify (JSON.JArray []))
  ∧ ticketCache (dispatch expo birthdays w).2 !! pretty (now w)
    = Some (JSON.stringify (JSON.JArray [])).
Proof.
  rewrite sendExpoNotifications_run.
  destruct (dispatch_run expo birthdays w) as (lines & polls & _ & _ & ->).
  cbn [snd ticketCache]. by rewrite lookup_insert_eq.
Qed.

(** C1 fails on the code: the service accepts the one message and returns
    its ticket, which ends up in the [tickets] array, but the text cached
    under the batch identifier is the empty array, written before the
    submission was answered; the reconciler then has nothing to poll. *)
Theorem dispatch_caches_no_ticket :
  let birthdays := [Demo.birthday "Alice" 96 (Some "tok1")] in
  let result := dispatch Demo.expo birthdays Demo.world in
  result.1 = Normal {| tickets := [Demo.okTicket "receipt-tok1"];
                       sending := Settled |}
  ∧ ticketCache result.2 !! "1793574000000" = Some "[]"
  ∧ JSON.stringify (JSON.JArray [Demo.okTicket "receipt-tok1"]) ≠ "[]"
  ∧ requests result.2
    = [SendPush [{| to := Some "tok1"; sound := "default";
                    body := "Alice's birthday is 96 hours away!" |}]].
Proof. cbv zeta. split_and!; by vm_compute. Qed.


(** C7: with a positive chunk size the messages are submitted in
    [ceil(N / chunkSize)] calls whose chunks, put end to end, are the
    messages in their order; the tickets collected are the answers to
    the chunks put end to end, so when the service answers each chunk
    with one ticket per message, in order, the tickets are in the order
    of the messages. *)
Theorem chunked_submission expo birthdays w :
  (0 < pushNotificationChunkSizeLimit expo)%nat →
  let messages := pushMessages birthdays in
  let chunks := chunkPushNotifications expo messages in
  let result := dispatch expo birthdays w in
  submissions (requests result.2) = submissions (requests w) ++ chunks
  ∧ List.length chunks
    = ceilDiv (List.length messages) (pushNotificationChunkSizeLimit expo)
  ∧ List.concat chunks = messages
  ∧ (∃ act, result.1 = Normal act
            ∧ tickets act = List.concat (ticketsOf expo <$> chunks)
            ∧ ∀ ticket : ExpoPushMessage → ExpoPushTicket,
                (∀ chunk, sendPushNotificationsAsync expo chunk
                          = Normal (ticket <$> chunk)) →
                tickets act = ticket <$> messages).
Proof.
  intros Hlimit messages chunks result. subst result.
  destruct (dispatch_run expo birthdays w)
    as (lines & polls & Hpolls & _ & ->).
  fold messages. fold chunks. cbn [fst snd requests].
  split_and!.
  - rewrite !submissions_app, submissions_SendPush.
    by rewrite (submissions_polls polls Hpolls), app_nil_r.
  - by apply length_chunkLoop.
  - apply (concat_chunkLoop _ messages []).
  - eexists. split_and!; [done|done|]. cbn [tickets].
    intros ticket Hanswer.
    pose proof (concat_chunkLoop (pushNotificationChunkSizeLimit expo)
                  messages []) as Hcat.
    cbn [app] in Hcat. subst chunks. unfold chunkPushNotifications.
    revert Hcat.
    generalize (chunkLoop (pushNotificationChunkSizeLimit expo) messages []).
    intros chunks <-. clear -Hanswer.
    induction chunks as [|chunk rest IH]; [done|].
    cbn [fmap list_fmap List.concat]. rewrite fmap_app, <- IH.
    f_equal. unfold ticketsOf. by rewrite Hanswer.
Qed.

(** C8: the messages submitted are, in order, one for each tuple with
    [pushNotifications] set and a non-empty device token; such a message
    goes to the tuple's token and its body is the tuple's friend name,
    then ['s birthday is ], the hours, and [ hours away!]. *)
Theorem messages_for_push_tuples expo birthdays w :
  List.concat (submissions (requests (dispatch expo birthdays w).2))
    = List.concat (submissions (requests w)) ++ pushMessages birthdays
  ∧ pushMessages birthdays
    = omap (λ item,
              match pushNotifications item, token item with
              | true, Some (String c s) =>
                  Some {| to := Some (String c s);
                          sound := "default";
                          body := friendName item +:+ "'s birthday is "
                                  +:+ pretty (hoursUntil item)
                                  +:+ " hours away!" |}
              | _, _ => None
              end) birthdays
  ∧ ∀ m, m ∈ pushMessages birthdays ↔
         ∃ item deviceToken,
           item ∈ birthdays
           ∧ pushNotifications item = true
           ∧ token item = Some deviceToken
           ∧ deviceToken ≠ EmptyString
           ∧ to m = Some deviceToken
           ∧ sound m = "default"
           ∧ body m = friendName item +:+ "'s birthday is "
                      +:+ pretty (hoursUntil item) +:+ " hours away!".
Proof.
  split_and!.
  - destruct (dispatch_run expo birthdays w)
      as (lines & polls & Hpolls & _ & ->).
    cbn [snd requests].
    rewrite !submissions_app, submissions_SendPush.
    rewrite (submissions_polls polls Hpolls), app_nil_r, concat_app. f_equal.
    apply (concat_chunkLoop _ (pushMessages birthdays) []).
  - unfold pushMessages. induction birthdays as [|item rest IH]; [done|].
    cbn [List.filter omap list_omap].
    destruct (pushNotifications item); [|done].
    destruct (token item) as [[|c s]|] eqn:Htok; cbn [truthyString andb];
      [done| |done].
    cbn [fmap list_fmap]. by rewrite Htok, <- IH.
  - intros m. unfold pushMessages. rewrite list_elem_of_fmap. split.
    + intros (item & -> & Hitem).
      apply list_elem_of_In in Hitem. apply filter_In in Hitem.
      destruct Hitem as [Hitem Hkeep].
      apply andb_prop in Hkeep. destruct Hkeep as [Hpush Htoken].
      destruct (token item) as [[|c s]|] eqn:Htok; try done.
      exists item, (String c s).
      split_and!; try done. apply list_elem_of_In. exact Hitem.
    + intros (item & deviceToken & Hitem & Hpush & Htok & Hne & Hto & Hsound
                & Hbody).
      exists item. split.
      * destruct m. cbn [to sound body] in *. subst. by rewrite Htok.
      * apply list_elem_of_In, filter_In. split; [apply list_elem_of_In; exact Hitem|].
        rewrite Hpush, Htok. by destruct deviceToken.
Qed.

(** The message of the spec's end-to-end scenario. *)
Example message_for_F :
  pushMessages [Demo.birthday "F" 10 (Some "tok1")]
  = [{| to := Some "tok1"; sound := "default";
        body := "F's birthday is 10 hours away!" |}].
Proof. reflexivity. Qed.

(** ** The theorems at the example installation *)

Lemma Demo_alice_candidate : Demo.row Demo.alice ∈ candidates Demo.db.
Proof. vm_compute. apply list_elem_of_here. Defined.

(** Alice's birthday is exactly 96 hours away and her tuple is in the
    result for [cutoffHours = 96]. *)
Lemma cutoff_boundary_inclusive_witness :
  mongo Demo.world = Connected Demo.db
  ∧ Demo.row Demo.alice ∈ candidates Demo.db
  ∧ ∃ l dev,
      (getApproachingBirthdays 96 24 Demo.world).1 = Normal l
      ∧ tuple (project (addBirthdayFields (now Demo.world)
                          (Demo.row Demo.alice), dev)) ∈ l
      ∧ hoursUntil (tuple (project (addBirthdayFields (now Demo.world)
                                      (Demo.row Demo.alice), dev))) = 96.
Proof.
  split; [reflexivity|]. split; [exact Demo_alice_candidate|].
  apply (cutoff_boundary_inclusive Demo.world Demo.db 96 24
           (Demo.row Demo.alice) eq_refl Demo_alice_candidate).
  - vm_compute. reflexivity.
  - vm_compute. reflexivity.
Defined.

(** Alice was last notified 24 hours and one minute ago: with a
    clearance of 24 hours she is in the result. *)
Lemma clearance_boundary_exclusive_witness :
  mongo Demo.world = Connected Demo.db
  ∧ Demo.row Demo.alice ∈ candidates Demo.db
  ∧ Rows.hoursUntilBirthday
      (addBirthdayFields (now Demo.world) (Demo.row Demo.alice)) ≤ 96
  ∧ ∃ l t, (getApproachingBirthdays 96 24 Demo.world).1 = Normal l
           ∧ t ∈ l ∧ userId t = "u1" ∧ friendId t = "f1".
Proof.
  assert (Rows.hoursUntilBirthday
            (addBirthdayFields (now Demo.world) (Demo.row Demo.alice)) ≤ 96)
    as Hcut by (apply Z.leb_le; vm_compute; reflexivity).
  split; [reflexivity|]. split; [exact Demo_alice_candidate|].
  split; [exact Hcut|].
  apply (clearance_boundary_exclusive Demo.world Demo.db 96 24
           (Demo.row Demo.alice) eq_refl Demo_alice_candidate Hcut).
  intros n (Hn & Hu & Hf). cbn [notifications Demo.db] in Hn.
  apply elem_of_cons in Hn. destruct Hn as [->|Hn]; [reflexivity|].
  apply elem_of_cons in Hn. destruct Hn as [->|Hn]; [discriminate Hf|].
  by apply elem_of_nil in Hn.
Defined.


(** The data base cannot be reached: the result is empty and the error
    is printed. *)
Lemma resolution_failure_returns_empty_witness :
  mongo Demo.offline
    = Failing {| errorName := "MongoNetworkError";
                 errorMessage := "connection refused" |}
  ∧ getApproachingBirthdays 96 24 Demo.offline
    = (Normal [],
       emit Demo.offline
         [console_error {| errorName := "MongoNetworkError";
                           errorMessage := "connection refused" |}] []).
Proof.
  split; [reflexivity|].
  apply (resolution_failure_returns_empty Demo.offline _ 96 24 eq_refl).
Defined.

(** Three messages with a chunk size of two are submitted in two
    calls. *)
Lemma chunked_submission_witness :
  (0 < pushNotificationChunkSizeLimit Demo.expo)%nat
  ∧ List.length
      (chunkPushNotifications Demo.expo
         (pushMessages [Demo.birthday "Alice" 96 (Some "tok1");
                        Demo.birthday "Bob" 48 (Some "tok2");
                        Demo.birthday "Carol" 24 (Some "tok3")]))
    = ceilDiv
        (List.length
           (pushMessages [Demo.birthday "Alice" 96 (Some "tok1");
                          Demo.birthday "Bob" 48 (Some "tok2");
                          Demo.birthday "Carol" 24 (Some "tok3")]))
        (pushNotificationChunkSizeLimit Demo.expo).
Proof.
  assert (0 < pushNotificationChunkSizeLimit Demo.expo)%nat as Hlimit
    by (cbn; lia).
  split; [exact Hlimit|].
  apply (chunked_submission Demo.expo
           [Demo.birthday "Alice" 96 (Some "tok1");
            Demo.birthday "Bob" 48 (Some "tok2");
            Demo.birthday "Carol" 24 (Some "tok3")] Demo.world Hlimit).
Defined.

Example three_messages_two_calls :
  submissions
    (requests (dispatch Demo.expo
                 [Demo.birthday "Alice" 96 (Some "tok1");
                  Demo.birthday "Bob" 48 (Some "tok2");
                  Demo.birthday "Carol" 24 (Some "tok3")] Demo.world).2)
  = [[{| to := Some "tok1"; sound := "default";
         body := "Alice's birthday is 96 hours away!" |};
      {| to := Some "tok2"; sound := "default";
         body := "Bob's birthday is 48 hours away!" |}];
     [{| to := Some "tok3"; sound := "default";
         body := "Carol's birthday is 24 hours away!" |}]].
Proof. by vm_compute. Qed.

(** The resolver at the example installation: Alice is due, Bob's
    birthday is far away, Carol was notified less than 24 hours ago. *)
Example resolver_at_demo :
  (getApproachingBirthdays 96 24 Demo.world).1
  = Normal [{| userId := "u1"; email := "u1@example.org";
               token := Some "tok1"; friendId := "f1";
               friendName := "Alice"; hoursUntil := 96;
               emailNotifications := false; pushNotifications := true |}].
Proof. by vm_compute. Qed.

(** When the push service cannot be reached, each submission is
    rejected, the rejection is printed, and the loop goes on. *)
Example unreachable_service_is_printed :
  let result :=
    dispatch Demo.unreachable
      [Demo.birthday "Alice" 96 (Some "tok1");
       Demo.birthday "Bob" 48 (Some "tok2");
       Demo.birthday "Carol" 24 (Some "tok3")] Demo.world in
  result.1 = Normal {| tickets := []; sending := Settled |}
  ∧ console result.2
    = [console_error {| errorName := "FetchError";
                        errorMessage := "timeout" |};
       console_error {| errorName := "FetchError";
                        errorMessage := "timeout" |}]
  ∧ List.length (submissions (requests result.2)) = 2%nat.
Proof. cbv zeta. split_and!; by vm_compute. Qed.

(** Tuples without a device token, with an empty one, or without push
    notifications get no message. *)
Example no_message_without_token :
  pushMessages
    [Demo.birthday "Alice" 96 None;
     Demo.birthday "Bob" 48 (Some EmptyString);
     {| userId := "u2"; email := "u2@example.org"; token := Some "tok9";
        friendId := "f9"; friendName := "Dan"; hoursUntil := 3;
        emailNotifications := true; pushNotifications := false |}]
  = [].
Proof. reflexivity. Qed.

(** A ticket array survives [JSON.stringify] followed by [JSON.parse]. *)
Example tickets_parse_back :
  JSON.parse (JSON.stringify
                (JSON.JArray [Demo.okTicket "r1";
                              JSON.JObject
                                [("status", JSON.JString "error");
                                 ("message", JSON.JString "not registered");
                                 ("details",
                                  JSON.JObject
                                    [("error",
                                      JSON.JString "DeviceNotRegistered")])]]))
  = Some (JSON.JArray [Demo.okTicket "r1";
                       JSON.JObject
                         [("status", JSON.JString "error");
                          ("message", JSON.JString "not registered");
                          ("details",
                           JSON.JObject
                             [("error",
                               JSON.JString "DeviceNotRegistered")])]]).
Proof. by vm_compute. Qed.

(** A birthday on 29 February is moved to 1 March in a year that has no
    such day. *)
Example leap_day_birthday :
  civilFromDays (daysFromCivil 2026 2 29) = (2026, 3, 1)
  ∧ civilFromDays (daysFromCivil 2028 2 29) = (2028, 2, 29).
Proof. split; reflexivity. Qed.

(** One minute before the user's midnight the birthday is one hour
    away, at midnight it is zero hours away. *)
Example hours_until_midnight :
  dateDiffHour (Demo.today - 60000) Demo.today Demo.zone = 1
  ∧ dateDiffHour Demo.today Demo.today Demo.zone = 0.
Proof. split; by vm_compute. Qed.

(** * Further properties *)

(** ** Passwords *)

Section Passwords.

Import UserModel.

Lemma lookahead_elem cls s :
  lookahead cls s = true →
  ∃ c, c ∈ list_ascii_of_string s ∧ cls c = true.
Proof.
  induction s as [|c r IH]; cbn [lookahead list_ascii_of_string]; [done|].
  intros H. apply orb_true_iff in H as [H|H].
  - exists c. split; [left|done].
  - apply andb_true_iff in H as [_ H]. destruct (IH H) as (c' & Hin & Hc').
    exists c'. split; [by right|done].
Qed.

Lemma allChars_spec cls s :
  allChars cls s = true ↔ ∀ c, c ∈ list_ascii_of_string s → cls c = true.
Proof.
  induction s as [|c r IH]; cbn [allChars list_ascii_of_string].
  - split; [|done]. intros _ c Hc. by apply elem_of_nil in Hc.
  - rewrite andb_true_iff, IH. split.
    + intros [Hc Hr] c' Hin. apply elem_of_cons in Hin as [->|Hin]; auto.
    + intros Hall. split; [apply Hall; left|].
      intros c' Hin. apply Hall. by right.
Qed.

(** No character of the class is a line terminator, so [.] matches every
    character of a text the body of the pattern accepts. *)
Lemma isAllowed_not_terminator c :
  isAllowed c = true → isLineTerminator c = false.
Proof. destruct c as [[] [] [] [] [] [] [] []]; by vm_compute. Qed.

Lemma lookahead_of_elem cls s c :
  allChars isAllowed s = true →
  c ∈ list_ascii_of_string s → cls c = true → lookahead cls s = true.
Proof.
  induction s as [|c' r IH]; cbn [allChars lookahead list_ascii_of_string].
  - intros _ Hin. by apply elem_of_nil in Hin.
  - intros Hall Hin Hc. apply andb_true_iff in Hall as [Hc' Hr].
    apply orb_true_iff.
    apply elem_of_cons in Hin as [<-|Hin]; [by left|right].
    rewrite (isAllowed_not_terminator c' Hc'). cbn [negb andb]. by apply IH.
Qed.

Lemma length_list_ascii_of_string s :
  List.length (list_ascii_of_string s) = String.length s.
Proof. induction s; cbn; by f_equal. Qed.

(** The pattern in terms of the list of characters. *)
Lemma validatePasswordPattern_chars val :
  validatePasswordPattern val = true ↔
    (8 ≤ List.length (list_ascii_of_string val))%nat
    ∧ Forall (λ c, isAllowed c = true) (list_ascii_of_string val)
    ∧ Exists (λ c, isLower c = true) (list_ascii_of_string val)
    ∧ Exists (λ c, isUpper c = true) (list_ascii_of_string val)
    ∧ Exists (λ c, isDigit c = true) (list_ascii_of_string val)
    ∧ Exists (λ c, isSpecial c = true) (list_ascii_of_string val).
Proof.
  rewrite Forall_forall, !Exists_exists, length_list_ascii_of_string.
  unfold validatePasswordPattern. rewrite !andb_true_iff. split.
  - intros ((((Hl & Hu) & Hd) & Hs) & Hall & Hlen).
    apply Nat.leb_le in Hlen.
    pose proof (proj1 (allChars_spec _ _) Hall) as Hall'.
    split_and!; [done|done|..]; by apply lookahead_elem.
  - intros (Hlen & Hall & (cl & Hcl & Hl) & (cu & Hcu & Hu) & (cd & Hcd & Hd)
              & (cs & Hcs & Hs)).
    pose proof (proj2 (allChars_spec isAllowed val) Hall) as Hall'.
    split_and!; [| | | |done|by apply Nat.leb_le].
    + exact (lookahead_of_elem _ _ cl Hall' Hcl Hl).
    + exact (lookahead_of_elem _ _ cu Hall' Hcu Hu).
    + exact (lookahead_of_elem _ _ cd Hall' Hcd Hd).
    + exact (lookahead_of_elem _ _ cs Hall' Hcs Hs).
Qed.

(** X1: the pattern accepts exactly the texts of at least eight
    characters, all of them letters, digits or special characters, with
    at least one lower-case letter, one upper-case letter, one digit and
    one special character among them. *)
Theorem validatePasswordPattern_spec val :
  validatePasswordPattern val = true ↔
    (8 ≤ String.length val)%nat
    ∧ (∀ c, c ∈ list_ascii_of_string val → isAllowed c = true)
    ∧ (∃ c, c ∈ list_ascii_of_string val ∧ isLower c = true)
    ∧ (∃ c, c ∈ list_ascii_of_string val ∧ isUpper c = true)
    ∧ (∃ c, c ∈ list_ascii_of_string val ∧ isDigit c = true)
    ∧ (∃ c, c ∈ list_ascii_of_string val ∧ isSpecial c = true).
Proof.
  rewrite validatePasswordPattern_chars.
  rewrite Forall_forall, !Exists_exists.
  by rewrite length_list_ascii_of_string.
Qed.

(** X2: whether a password is accepted does not depend on the order of
    its characters. *)
Theorem validatePasswordPattern_permutation val val' :
  list_ascii_of_string val ≡ₚ list_ascii_of_string val' →
  validatePasswordPattern val = validatePasswordPattern val'.
Proof.
  intros Hperm.
  assert (validatePasswordPattern val = true
          ↔ validatePasswordPattern val' = true) as Hiff.
  { pose proof (Permutation_length Hperm) as Hlen.
    assert (∀ P : ascii → Prop,
              Forall P (list_ascii_of_string val)
              ↔ Forall P (list_ascii_of_string val')) as Hall
      by (intros P; by apply Forall_Permutation).
    assert (∀ P : ascii → Prop,
              Exists P (list_ascii_of_string val)
              ↔ Exists P (list_ascii_of_string val')) as Hsome
      by (intros P; by apply Exists_Permutation).
    rewrite !validatePasswordPattern_chars, Hlen, Hall, !Hsome.
    reflexivity. }
  destruct (validatePasswordPattern val), (validatePasswordPattern val');
    [reflexivity | symmetry; by apply Hiff | by apply Hiff | reflexivity].
Qed.

End Passwords.

(** ** The JSON form of a user *)

Section ToJSON.

Import UserModel.

Transparent year month dayOfMonth.

Lemma daysFromCivil_civilFromDays z :
  daysFromCivil (civilFromDays z).1.1 (civilFromDays z).1.2
    (civilFromDays z).2 = z.
Proof.
  unfold civilFromDays. cbv zeta. cbn [fst snd].
  set (era := (z + 719468) / 146097).
  set (doe := z + 719468 - era * 146097).
  assert (0 <= doe < 146097) as Hdoe
    by (subst doe era; Z.to_euclidean_division_equations; lia).
  assert (z = era * 146097 + doe - 719468) as Hz by (subst doe; lia).
  clearbody doe era.
  set (yoe := (doe - doe / 1460 + doe / 36524 - doe / 146096) / 365).
  assert (0 <= yoe < 400
          /\ 0 <= doe - (365 * yoe + yoe / 4 - yoe / 100) <= 365) as [Hyoe Hdoy]
    by (subst yoe; Z.to_euclidean_division_equations; lia).
  clearbody yoe.
  set (doy := doe - (365 * yoe + yoe / 4 - yoe / 100)) in *.
  assert (doe = yoe * 365 + yoe / 4 - yoe / 100 + doy) as Hdoe'
    by (subst doy; lia).
  clearbody doy.
  set (mp := (5 * doy + 2) / 153).
  assert (0 <= mp <= 11) as Hmp
    by (subst mp; Z.to_euclidean_division_equations; lia).
  set (d := doy - (153 * mp + 2) / 5 + 1).
  assert (doy = (153 * mp + 2) / 5 + d - 1) as Hd by (subst d; lia).
  clearbody d mp.
  unfold daysFromCivil.
  destruct (Z.ltb_spec mp 10).
  - destruct (Z.leb_spec (mp + 3) 2); [lia|].
    replace (mp + 3 - 3) with mp by lia.
    replace ((yoe + era * 400) / 400) with era
      by (Z.to_euclidean_division_equations; lia).
    replace (yoe + era * 400 - era * 400) with yoe by lia. lia.
  - destruct (Z.leb_spec (mp - 9) 2); [|lia].
    replace (mp - 9 + 9) with mp by lia.
    replace (yoe + era * 400 + 1 - 1) with (yoe + era * 400) by lia.
    replace ((yoe + era * 400) / 400) with era
      by (Z.to_euclidean_division_equations; lia).
    replace (yoe + era * 400 - era * 400) with yoe by lia. lia.
Qed.

(** Dates with the same year, month and day are on the same UTC day. *)
Lemma same_civil_same_day t t' :
  year t' = year t → month t' = month t → dayOfMonth t' = dayOfMonth t →
  t' / msPerDay = t / msPerDay.
Proof.
  unfold year, month, dayOfMonth. intros Hy Hm Hd.
  rewrite <- (daysFromCivil_civilFromDays (t' / msPerDay)).
  rewrite <- (daysFromCivil_civilFromDays (t / msPerDay)).
  by rewrite Hy, Hm, Hd.
Qed.

Lemma same_day_same_civil t t' :
  t' / msPerDay = t / msPerDay →
  year t' = year t ∧ month t' = month t ∧ dayOfMonth t' = dayOfMonth t.
Proof. unfold year, month, dayOfMonth. by intros ->. Qed.

Opaque year month dayOfMonth.

Lemma digitChar_cases n :
  ∃ k, (k < 10)%N ∧ Z.of_N k = n mod 10 ∧ digitChar n = ascii_of_N (48 + k).
Proof.
  exists (Z.to_N (n mod 10)). unfold digitChar.
  assert (0 ≤ n mod 10 < 10) by (apply Z.mod_pos_bound; lia).
  split_and!; [lia|lia|done].
Qed.

Lemma digitChar_not_T n : Ascii.eqb (digitChar n) "T" = false.
Proof.
  destruct (digitChar_cases n) as (k & Hk & _ & ->).
  assert (k = 0 ∨ k = 1 ∨ k = 2 ∨ k = 3 ∨ k = 4 ∨ k = 5 ∨ k = 6 ∨ k = 7
          ∨ k = 8 ∨ k = 9)%N as Hc by lia.
  repeat destruct Hc as [->|Hc]; try subst k; reflexivity.
Qed.

Lemma digitChar_inj a b : digitChar a = digitChar b → a mod 10 = b mod 10.
Proof.
  destruct (digitChar_cases a) as (k & Hk & <- & ->).
  destruct (digitChar_cases b) as (k' & Hk' & <- & ->).
  intros Heq. apply (f_equal N_of_ascii) in Heq.
  rewrite !N_ascii_embedding in Heq by lia. lia.
Qed.

Lemma append_cons c s s' : String c s +:+ s' = String c (s +:+ s').
Proof. reflexivity. Qed.

Lemma append_nil s : EmptyString +:+ s = s.
Proof. reflexivity. Qed.

(** The date part of [toISOString] for a year of four digits. *)
Lemma splitFirst_toISOString t :
  0 ≤ year t ≤ 9999 → splitFirst "T" (toISOString t) = isoDate t.
Proof.
  intros Hyear. unfold toISOString, isoDate, isoYear.
  replace ((0 <=? year t) && (year t <=? 9999)) with true
    by (symmetry; apply andb_true_iff; split; apply Z.leb_le; lia).
  unfold pad4, pad3, pad2.
  repeat (rewrite append_cons || rewrite append_nil).
  cbn [splitFirst]. rewrite !digitChar_not_T.
  change (Ascii.eqb "-" "T") with false.
  change (Ascii.eqb "T" "T") with true. done.
Qed.

(** X3: the JSON form of a user never has a [passwordHash]; the fields
    other than [passwordHash] and [dob] are as they were, and so is a
    [dob] that is not a date; transforming twice is transforming once. *)
Theorem transform_hides_passwordHash (ret : gmap string Value) :
  transform ret !! "passwordHash" = None
  ∧ (∀ key, key ≠ "passwordHash" → key ≠ "dob" →
            transform ret !! key = ret !! key)
  ∧ (∀ v, ret !! "dob" = Some v → (∀ t, v ≠ VDate t) →
          transform ret !! "dob" = Some v)
  ∧ (ret !! "dob" = None → transform ret !! "dob" = None)
  ∧ transform (transform ret) = transform ret.
Proof.
  assert (delete "passwordHash" ret !! "dob" = ret !! "dob") as Hdob
    by by rewrite lookup_delete_ne.
  unfold transform at 1 2 3 4 6. cbv zeta. rewrite Hdob.
  destruct (ret !! "dob") as [[s|n|t|id]|] eqn:Hret.
  all: split_and!.
  all: try (by rewrite ?lookup_insert_ne, ?lookup_delete_eq by done).
  all: try (intros key Hk1 Hk2;
            by rewrite ?lookup_insert_ne, ?lookup_delete_ne by done).
  all: try (intros v [= <-] Hv; first [by destruct (Hv t) | done]).
  all: try (intros v [= <-] Hv; by rewrite lookup_delete_ne).
  all: unfold transform; cbv zeta.
  all: rewrite ?delete_insert_ne, ?delete_delete_eq by done.
  all: rewrite ?lookup_insert_eq, ?Hdob, ?Hret; try done.
Qed.

(** X4: a [dob] that is a date with a year from 0 to 9999 is replaced
    by the ten characters [YYYY-MM-DD] of its calendar date in UTC; two
    dates get the same text exactly when they are on the same UTC day. *)
Theorem transform_dob_is_utc_day (ret : gmap string Value) t :
  ret !! "dob" = Some (VDate t) →
  0 ≤ year t ≤ 9999 →
  transform ret !! "dob" = Some (VString (isoDate t))
  ∧ String.length (isoDate t) = 10%nat
  ∧ ∀ t', 0 ≤ year t' ≤ 9999 →
          (isoDate t' = isoDate t ↔ t' / msPerDay = t / msPerDay).
Proof.
  intros Hdob Hyear. split_and!.
  - unfold transform. cbv zeta. rewrite lookup_delete_ne, Hdob by done.
    rewrite lookup_insert_eq. by rewrite splitFirst_toISOString.
  - unfold isoDate, pad4, pad3, pad2.
    repeat (rewrite append_cons || rewrite append_nil). reflexivity.
  - intros t' Hyear'. split.
    + unfold isoDate. unfold pad4, pad3, pad2.
      repeat (rewrite append_cons || rewrite append_nil).
      intros [= Hy3 Hy2 Hy1 Hy0 Hm1 Hm0 Hd1 Hd0].
      apply digitChar_inj in Hy3, Hy2, Hy1, Hy0, Hm1, Hm0, Hd1, Hd0.
      pose proof (month_dayOfMonth_valid t) as [? ?].
      pose proof (month_dayOfMonth_valid t') as [? ?].
      apply same_civil_same_day.
      * revert Hy3 Hy2 Hy1 Hy0. Z.to_euclidean_division_equations. lia.
      * revert Hm1 Hm0. Z.to_euclidean_division_equations. lia.
      * revert Hd1 Hd0. Z.to_euclidean_division_equations. lia.
    + intros Hsame. apply same_day_same_civil in Hsame as (Hy & Hm & Hd).
      unfold isoDate. by rewrite Hy, Hm, Hd.
Qed.

End ToJSON.

(** ** Saving a user *)

Section PreSaveFacts.

Import UserModel.

Context (defaults : UserProfile.t) (hashString : string → Completion string).

Opaque validatePasswordPattern isModified.

(** X6: for a new user the blank profile of its [_id] is added to
    [userprofiles] before anything is validated, so it is there whatever
    the hook hands to [next], an error included; for a user that is not
    new the hook leaves the world as it is; and when the profile of a
    new user cannot be created the hook's promise rejects. *)
Theorem preSave_creates_profile this w :
  (isNew this = false → (preSave defaults hashString this w).2 = w)
  ∧ (∀ db, isNew this = true → mongo w = Connected db →
       ∃ doc' arg,
         preSave defaults hashString this w
         = (Normal (doc', arg),
            {| now := now w;
               mongo := Connected
                          {| users := users db;
                             userprofiles :=
                               userprofiles db
                               ++ [blankProfile defaults (_id this)];
                             friends := friends db;
                             notifications := notifications db;
                             deviceinfos := deviceinfos db |};
               ticketCache := ticketCache w; console := console w;
               timers := timers w; requests := requests w |}))
  ∧ (∀ e, isNew this = true → mongo w = Failing e →
          preSave defaults hashString this w = (Throw e, w)).
Proof.
  unfold preSave, Profile_create. split_and!.
  - intros ->. js_unfold. cbn.
    destruct (isModified "dob" this && (now w <? dob this)); [done|].
    destruct (negb (isModified "passwordHash" this)); [done|].
    destruct (negb (validatePasswordPattern (passwordHash this))); [done|].
    cbn. by destruct (hashString (passwordHash this)).
  - intros db -> Hdb. js_unfold. cbn. rewrite Hdb. cbn.
    destruct (isModified "dob" this && (now w <? dob this));
      [by eexists _, _|].
    destruct (negb (isModified "passwordHash" this)); [by eexists _, _|].
    destruct (negb (validatePasswordPattern (passwordHash this)));
      [by eexists _, _|].
    cbn. destruct (hashString (passwordHash this)); by eexists _, _.
  - intros e -> Hdb. js_unfold. cbn. by rewrite Hdb.
Qed.

(** X5: a modified date of birth later than now is refused with the
    error [Date of birth cannot be in the future], and the document is
    left as it is; a date of birth equal to now, or earlier, or one that
    was not modified, passes, and with an unmodified password the save
    goes on without an error. *)
Theorem preSave_dob_not_in_future this w :
  (isNew this = true → ∃ db, mongo w = Connected db) →
  (isModified "dob" this = true → now w < dob this →
   (preSave defaults hashString this w).1
   = Normal (this,
             WithError (newError "Date of birth cannot be in the future")))
  ∧ (isModified "dob" this = false ∨ dob this ≤ now w →
     isModified "passwordHash" this = false →
     (preSave defaults hashString this w).1 = Normal (this, NoError)).
Proof.
  intros Hconn.
  unfold preSave, Profile_create. js_unfold.
  destruct (isNew this).
  - destruct Hconn as [db Hdb]; [done|]. rewrite Hdb. cbn. split.
    + intros -> Hfuture.
      by replace (now w <? dob this) with true by (symmetry; lia).
    + intros Hok ->. cbn.
      destruct Hok as [->|Hok]; [done|].
      replace (now w <? dob this) with false by (symmetry; lia).
      by rewrite andb_false_r.
  - cbn. split.
    + intros -> Hfuture.
      by replace (now w <? dob this) with true by (symmetry; lia).
    + intros Hok ->. cbn.
      destruct Hok as [->|Hok]; [done|].
      replace (now w <? dob this) with false by (symmetry; lia).
      by rewrite andb_false_r.
Qed.

(** X7: what the hook does to the password.  When it hands no error to
    [next] and the password was modified, the password matched the
    pattern and the document holds what [hashString] returned for it;
    when the password was not modified, or an error is handed to
    [next], the document is left as it is; nothing but [passwordHash]
    ever changes. *)
Theorem preSave_password this w doc' arg :
  (preSave defaults hashString this w).1 = Normal (doc', arg) →
  (arg = NoError → isModified "passwordHash" this = true →
   validatePasswordPattern (passwordHash this) = true
   ∧ hashString (passwordHash this) = Normal (passwordHash doc'))
  ∧ (isModified "passwordHash" this = false → doc' = this)
  ∧ (∀ e, arg = WithError e → doc' = this)
  ∧ (isModified "passwordHash" this = true →
     validatePasswordPattern (passwordHash this) = false →
     ∃ e, arg = WithError e)
  ∧ doc' = setPasswordHash this (passwordHash doc').
Proof.
  assert (this = setPasswordHash this (passwordHash this)) as Hthis
    by by destruct this.
  unfold preSave, Profile_create. js_unfold.
  destruct (isNew this); [destruct (mongo w); [|done]|]; cbn.
  all: destruct (isModified "dob" this && (now w <? dob this)).
  all: try (intros [= <- <-]; split_and!; try done; by eauto).
  all: destruct (isModified "passwordHash" this); cbn.
  all: try (intros [= <- <-]; split_and!; by try done).
  all: destruct (validatePasswordPattern (passwordHash this)); cbn.
  all: try (intros [= <- <-]; split_and!; try done; by eauto).
  all: destruct (hashString (passwordHash this)); cbn.
  all: intros [= <- <-]; split_and!; try done; by eauto.
Qed.

End PreSaveFacts.

(** ** More on the Reconciler *)

Lemma handleExpoReceipts_cached expo identifier w :
  handleExpoReceipts expo identifier w
  = try_catch
      (tickets ← JSON_parse (ticketCache w !! identifier);
       items ← iterate tickets;
       receiptIds ← collectReceiptIds items [];
       pollReceipts expo (chunkPushNotificationReceiptIds expo receiptIds))
      (λ error, print (console_error error)) w.
Proof. reflexivity. Qed.

Lemma JSON_parse_Some text v :
  JSON.parse text = Some v → Emits (JSON_parse (Some text)) (Normal v) [] [].
Proof.
  intros Hparse. unfold JSON_parse. cbn [from_option id]. rewrite Hparse.
  apply Emits_mret.
Qed.

(** Without a [null] among the tickets the first loop collects the
    truthy ids. *)
Lemma collectReceiptIds_ids items : ∀ receiptIds,
  JSON.JNull ∉ items →
  Emits (collectReceiptIds items receiptIds)
        (Normal (receiptIds ++ receiptIdsOf items)) [] [].
Proof.
  induction items as [|ticket rest IH]; intros acc Hnull.
  - cbn. rewrite app_nil_r. apply Emits_mret.
  - assert (JSON.JNull ∉ rest) as Hrest
      by (intros Hin; apply Hnull; by right).
    assert (ticket ≠ JSON.JNull) as Hticket
      by (intros ->; apply Hnull; left).
    unfold receiptIdsOf. cbn [collectReceiptIds omap list_omap].
    fold (receiptIdsOf rest).
    destruct ticket as [|b|m e|str|arr|members]; [done|..];
      cbn [getProperty];
      (eapply (Emits_bind _ _ _ _ [] [] [] []); [apply Emits_mret|]);
      cbn beta iota; try exact (IH acc Hrest).
    destruct (lookupMember "id" members) as [v|];
      [destruct (truthy (Some v))|]; try exact (IH acc Hrest).
    pose proof (IH (acc ++ [v]) Hrest) as Hv.
    by rewrite <- app_assoc in Hv.
Qed.

(** A [null] among the tickets ends the first loop with a [TypeError]. *)
Lemma collectReceiptIds_null items : ∀ receiptIds,
  JSON.JNull ∈ items →
  Emits (collectReceiptIds items receiptIds)
        (Throw (TypeError ("Cannot read properties of null, reading " +:+ "id")))
        [] [].
Proof.
  induction items as [|ticket rest IH]; intros acc Hnull.
  - by apply elem_of_nil in Hnull.
  - cbn [collectReceiptIds].
    destruct ticket as [|b|m e|str|arr|members];
      [apply Emits_bind_throw, Emits_throw|..].
    all: assert (JSON.JNull ∈ rest) as Hrest
      by (apply elem_of_cons in Hnull; by destruct Hnull).
    all: cbn [getProperty];
      (eapply (Emits_bind _ _ _ _ [] [] [] []); [apply Emits_mret|]);
      cbn beta iota; try exact (IH acc Hrest).
    destruct (lookupMember "id" members) as [v|];
      [destruct (truthy (Some v))|]; auto.
Qed.


(** X9: a cached text that is not an array of tickets is never polled:
    when it is an array with a [null] member, or a number, a boolean,
    [null] or an object, one [TypeError] is printed; when it is not
    JSON, one [SyntaxError]; when it is a JSON string, nothing at all
    happens.  In each case the reconciler ends normally. *)
Theorem reconcile_malformed_batch expo identifier w text :
  ticketCache w !! identifier = Some text →
  (∀ items, JSON.parse text = Some (JSON.JArray items) →
            JSON.JNull ∈ items →
            handleExpoReceipts expo identifier w
            = (Normal (),
               emit w [console_error
                         (TypeError ("Cannot read properties of null, reading "
                                     +:+ "id"))] []))
  ∧ (∀ v, JSON.parse text = Some v →
          (∀ items, v ≠ JSON.JArray items) → (∀ s, v ≠ JSON.JString s) →
          handleExpoReceipts expo identifier w
          = (Normal (),
             emit w [console_error (TypeError "tickets is not iterable")] []))
  ∧ (JSON.parse text = None →
     handleExpoReceipts expo identifier w
     = (Normal (),
        emit w [console_error (SyntaxError "Unexpected token in JSON")] []))
  ∧ (∀ s, JSON.parse text = Some (JSON.JString s) →
          handleExpoReceipts expo identifier w = (Normal (), w)).
Proof.
  intros Hcached. rewrite handleExpoReceipts_cached, Hcached. split_and!.
  - intros items Hparse Hnull.
    eapply (Emits_catch _ _ _ _ [] [] [_] []); [|apply Emits_print].
    eapply (Emits_bind _ _ _ _ [] [] [] []); [by apply JSON_parse_Some|].
    eapply (Emits_bind _ _ items _ [] [] [] []); [apply Emits_mret|].
    apply Emits_bind_throw. by apply collectReceiptIds_null.
  - intros v Hparse Harray Hstring.
    eapply (Emits_catch _ _ _ _ [] [] [_] []); [|apply Emits_print].
    eapply (Emits_bind _ _ _ _ [] [] [] []); [by apply JSON_parse_Some|].
    apply Emits_bind_throw.
    destruct v; try apply Emits_throw; [by destruct (Hstring s)|].
    by destruct (Harray items).
  - intros Hparse.
    eapply (Emits_catch _ _ _ _ [] [] [_] []); [|apply Emits_print].
    apply Emits_bind_throw. unfold JSON_parse. cbn [from_option id].
    rewrite Hparse. apply Emits_throw.
  - intros s Hparse. rewrite <- (emit_nil w) at 2.
    apply Emits_try.
    eapply (Emits_bind _ _ _ _ [] [] [] []); [by apply JSON_parse_Some|].
    eapply (Emits_bind _ _ _ _ [] [] [] []); [apply Emits_mret|].
    assert (receiptIdsOf ((λ c, JSON.JString (String c EmptyString))
                            <$> list_ascii_of_string s) = []) as Hids
      by (induction (list_ascii_of_string s); by cbn).
    eapply (Emits_bind _ _ _ _ [] [] [] []).
    + apply (collectReceiptIds_ids _ []).
      intros Hin. apply list_elem_of_fmap in Hin as (c & Hc & _). done.
    + rewrite Hids. cbn. apply Emits_mret.
Qed.

(** ** More on the Resolver *)

Transparent dateFromParts dateDiffHour year month dayOfMonth.

(** A month and a day of the calendar stay within their year. *)
Lemma daysFromCivil_month_day y m d :
  1 ≤ m ≤ 12 → 1 ≤ d ≤ 31 →
  daysFromCivil y 1 1 ≤ daysFromCivil y m d < daysFromCivil (y + 1) 1 1.
Proof.
  intros Hm Hd. unfold daysFromCivil.
  assert (m = 1 ∨ m = 2 ∨ m = 3 ∨ m = 4 ∨ m = 5 ∨ m = 6 ∨ m = 7 ∨ m = 8
          ∨ m = 9 ∨ m = 10 ∨ m = 11 ∨ m = 12) as Hc by lia.
  repeat destruct Hc as [Hc | Hc]; subst m;
    cbn [Z.leb Z.compare Pos.compare Pos.compare_cont];
    cbv zeta; Z.to_euclidean_division_equations; lia.
Qed.

(** The same month and day one year later is 365 or 366 days away. *)
Lemma daysFromCivil_next_year y m d :
  1 ≤ m ≤ 12 →
  365 ≤ daysFromCivil (y + 1) m d - daysFromCivil y m d ≤ 366.
Proof.
  intros Hm. unfold daysFromCivil.
  destruct (Z.leb_spec m 2); cbv zeta; Z.to_euclidean_division_equations; lia.
Qed.

(** An instant lies in the UTC year [$year] reads off it. *)
Lemma year_bounds t :
  daysFromCivil (year t) 1 1 * msPerDay ≤ t
  ∧ t < daysFromCivil (year t + 1) 1 1 * msPerDay.
Proof.
  unfold year.
  pose proof (daysFromCivil_civilFromDays (t / msPerDay)) as Hinv.
  pose proof (civilFromDays_range (t / msPerDay)) as [Hm Hd].
  destruct (civilFromDays (t / msPerDay)) as [[y m] d]. cbn [fst snd] in *.
  pose proof (daysFromCivil_month_day y m d Hm Hd) as Hy.
  rewrite Hinv in Hy. revert Hy.
  generalize (daysFromCivil y 1 1) (daysFromCivil (y + 1) 1 1).
  unfold msPerDay. intros a b Hy.
  Z.to_euclidean_division_equations; lia.
Qed.

(** The upcoming birthday is less than 366 days ahead, and not behind
    by more than the zone's offset east of UTC. *)
Lemma upcomingBirthday_bounds currentDateTime j :
  let r := addBirthdayFields currentDateTime j in
  let east := utcOffset (UserProfile.timezone (Rows.userProfile j))
              * msPerMinute in
  currentDateTime - Z.max 0 east ≤ Rows.upcomingBirthday r
  ∧ Rows.upcomingBirthday r - currentDateTime
    < 366 * msPerDay + Z.max 0 (- east).
Proof.
  cbv zeta. cbn [addBirthdayFields Rows.upcomingBirthday].
  unfold dateFromParts.
  pose proof (month_dayOfMonth_valid (Friend.dob (Rows.friends j)))
    as [Hm Hd].
  pose proof (year_bounds currentDateTime) as [Hlo Hhi].
  pose proof (daysFromCivil_month_day (year currentDateTime) _ _ Hm Hd)
    as Hthis.
  pose proof (daysFromCivil_month_day (year currentDateTime + 1) _ _ Hm Hd)
    as Hnext.
  pose proof (daysFromCivil_next_year (year currentDateTime) _
                (dayOfMonth (Friend.dob (Rows.friends j))) Hm) as Hstep.
  pose proof (daysFromCivil_next_year (year currentDateTime) 1 1
                ltac:(lia)) as Hyear.
  revert Hlo Hhi Hthis Hnext Hstep Hyear.
  generalize (daysFromCivil (year currentDateTime)
                (month (Friend.dob (Rows.friends j)))
                (dayOfMonth (Friend.dob (Rows.friends j)))).
  generalize (daysFromCivil (year currentDateTime + 1)
                (month (Friend.dob (Rows.friends j)))
                (dayOfMonth (Friend.dob (Rows.friends j)))).
  generalize (daysFromCivil (year currentDateTime) 1 1).
  generalize (daysFromCivil (year currentDateTime + 1) 1 1).
  generalize (daysFromCivil (year currentDateTime + 1 + 1) 1 1).
  unfold msPerDay, msPerMinute. intros c b a next this.
  intros Hlo Hhi Hthis Hnext Hstep Hyear.
  destruct (Z.ltb_spec
              (this * 86400000
               - utcOffset (UserProfile.timezone (Rows.userProfile j)) * 60000)
              currentDateTime); lia.
Qed.

Opaque dateFromParts dateDiffHour year month dayOfMonth.

(** X10: [hoursUntilBirthday] is below 8785 hours plus the zone's offset
    west of UTC, and it is negative by no more than the zone's offset
    east of UTC: for a user at or west of UTC it is never negative. *)
Theorem hoursUntilBirthday_bounds currentDateTime j :
  let r := addBirthdayFields currentDateTime j in
  let offset := utcOffset (UserProfile.timezone (Rows.userProfile j)) in
  - Z.max 0 offset ≤ 60 * Rows.hoursUntilBirthday r
  ∧ 60 * Rows.hoursUntilBirthday r < 527100 + Z.max 0 (- offset).
Proof.
  intros r offset.
  assert (timeOfDay (UserProfile.timezone (Rows.userProfile j))
            (Rows.upcomingBirthday r) = 0) as Hupcoming.
  { subst r. cbn [addBirthdayFields Rows.upcomingBirthday].
    destruct (_ <? _); apply dateFromParts_timeOfDay. }
  pose proof (dateDiffHour_to_full_hour currentDateTime
                (Rows.upcomingBirthday r) _
                (timeOfDay_full_hour _ _ Hupcoming)) as Hdiff.
  pose proof (upcomingBirthday_bounds currentDateTime j) as Hup.
  cbv zeta in Hup. fold r in Hup. fold offset in Hup.
  change (dateDiffHour currentDateTime (Rows.upcomingBirthday r)
            (UserProfile.timezone (Rows.userProfile j)))
    with (Rows.hoursUntilBirthday r) in Hdiff.
  revert Hdiff Hup.
  generalize (Rows.hoursUntilBirthday r) (Rows.upcomingBirthday r).
  unfold msPerHour, msPerDay, msPerMinute. lia.
Qed.

(** East of UTC the hours can be negative: at 12:00 UTC on 31 December,
    for a user fourteen hours east, a birthday on 1 January began two
    hours ago. *)
Example hoursUntilBirthday_negative :
  Rows.hoursUntilBirthday
    (addBirthdayFields
       (daysFromCivil 2026 12 31 * msPerDay + 12 * msPerHour)
       {| Rows.root := Demo.user1;
          Rows.userProfile :=
            {| UserProfile.user := "u1";
               UserProfile.timezone := {| utcOffset := 840 |};
               UserProfile.emailNotifications := false;
               UserProfile.pushNotifications := true |};
          Rows.friends :=
            {| Friend._id := "f9"; Friend.user := "u1";
               Friend.name := "Dave";
               Friend.dob := daysFromCivil 1990 1 1 * msPerDay |} |})
  = -2.
Proof. vm_compute. reflexivity. Qed.

(** X11: every tuple of the result is made from a user of the data
    base, the profile of that user and one of the user's friends; the
    profile has a channel enabled, the hours are within the cutoff, no
    notification of the pair is newer than the clearance threshold, and
    the token is that of one of the user's devices, or [null] when the
    user has none. *)
Theorem resolved_tuple_sound w db cutoffHours hours l t :
  mongo w = Connected db →
  (getApproachingBirthdays cutoffHours hours w).1 = Normal l →
  t ∈ l →
  ∃ u p f,
    u ∈ users db ∧ p ∈ userprofiles db ∧ f ∈ friends db
    ∧ UserProfile.user p = User._id u
    ∧ Friend.user f = User._id u
    ∧ userId t = UserProfile.user p
    ∧ email t = User.email u
    ∧ friendId t = Friend._id f
    ∧ friendName t = Friend.name f
    ∧ emailNotifications t = UserProfile.emailNotifications p
    ∧ pushNotifications t = UserProfile.pushNotifications p
    ∧ (emailNotifications t = true ∨ pushNotifications t = true)
    ∧ hoursUntil t ≤ cutoffHours
    ∧ (∀ n, n ∈ notifications db →
            Notification.userId n = userId t →
            Notification.friendId n = friendId t →
            Notification.dateSent n ≤ now w - hours * 3600000)
    ∧ match token t with
      | Some deviceToken =>
          ∃ d, d ∈ deviceinfos db
               ∧ DeviceInfo.userId d = User._id u
               ∧ DeviceInfo.deviceToken d = deviceToken
      | None =>
          ∀ d, d ∈ deviceinfos db → DeviceInfo.userId d ≠ User._id u
      end.
Proof.
  intros Hdb Hl Ht.
  destruct (proj1 (elem_of_getApproachingBirthdays w db cutoffHours hours t
                     Hdb)) as (j & dev & Hj & Hcut & Hrecent & Hdev & ->);
    [by exists l|].
  apply elem_of_candidates in Hj.
  destruct Hj as (Hu & Hp & Hpu & Hen & Hf & Hfu).
  exists (Rows.root j), (Rows.userProfile j), (Rows.friends j).
  split_and!; try done.
  - intros n Hn Hnu Hnf.
    exact (proj1 (recentNotifications_size_0 db _ _) Hrecent n Hn Hnu Hnf).
  - destruct dev as [d|]; cbn; [|exact Hdev].
    destruct Hdev as [Hd Hdu]. by exists d.
Qed.

(** X12: a pair that passes the filters is in the result once for each
    device of the user, with that device's token, and once with a
    [null] token when the user has no device. *)
Theorem resolved_tuple_per_device w db cutoffHours hours j :
  mongo w = Connected db →
  j ∈ candidates db →
  let r := addBirthdayFields (now w) j in
  Rows.hoursUntilBirthday r ≤ cutoffHours →
  (∀ n, n ∈ notifications db →
        Notification.userId n = UserProfile.user (Rows.userProfile j) →
        Notification.friendId n = Friend._id (Rows.friends j) →
        Notification.dateSent n ≤ now w - hours * 3600000) →
  ∃ l, (getApproachingBirthdays cutoffHours hours w).1 = Normal l
       ∧ (∀ d, d ∈ deviceinfos db →
               DeviceInfo.userId d = User._id (Rows.root j) →
               tuple (project (r, Some d)) ∈ l)
       ∧ ((∀ d, d ∈ deviceinfos db →
                DeviceInfo.userId d ≠ User._id (Rows.root j)) →
          tuple (project (r, None)) ∈ l).
Proof.
  intros Hdb Hj r Hcut Hclear.
  rewrite (getApproachingBirthdays_connected _ db) by done.
  eexists. split; [done|].
  assert (∀ dev, deviceOf db j dev →
                 tuple (project (r, dev))
                 ∈ tuple <$> pipeline db (now w) cutoffHours
                               (now w - hours * 3600000)) as Hin.
  { intros dev Hdev. apply list_elem_of_fmap. eexists. split; [done|].
    apply elem_of_pipeline. exists j, dev. split_and!; try done.
    by apply recentNotifications_size_0. }
  split.
  - intros d Hd Hdu. by apply (Hin (Some d)).
  - intros Hnone. by apply (Hin None).
Qed.

(** X13: a tuple of the result stays in the result when the cutoff is
    raised or the clearance is shortened. *)
Theorem resolved_monotone w db cutoffHours cutoffHours' hours hours' l t :
  mongo w = Connected db →
  cutoffHours ≤ cutoffHours' →
  hours' ≤ hours →
  (getApproachingBirthdays cutoffHours hours w).1 = Normal l →
  t ∈ l →
  ∃ l', (getApproachingBirthdays cutoffHours' hours' w).1 = Normal l'
        ∧ t ∈ l'.
Proof.
  intros Hdb Hcutoff Hhours Hl Ht.
  destruct (proj1 (elem_of_getApproachingBirthdays w db cutoffHours hours t
                     Hdb)) as (j & dev & Hj & Hcut & Hrecent & Hdev & ->);
    [by exists l|].
  apply (elem_of_getApproachingBirthdays w db cutoffHours' hours' _ Hdb).
  exists j, dev. split_and!; try done; [lia|].
  apply recentNotifications_size_0. intros n Hn Hnu Hnf.
  pose proof (proj1 (recentNotifications_size_0 db _ _) Hrecent n Hn Hnu Hnf).
  lia.
Qed.

(** ** More on the Dispatcher *)

Lemma elem_of_pushMessages birthdays m :
  m ∈ pushMessages birthdays →
  ∃ item deviceToken,
    item ∈ birthdays
    ∧ pushNotifications item = true
    ∧ token item = Some deviceToken
    ∧ deviceToken ≠ EmptyString
    ∧ m = {| to := Some deviceToken; sound := "default";
             body := friendName item +:+ "'s birthday is "
                     +:+ pretty (hoursUntil item) +:+ " hours away!" |}.
Proof.
  unfold pushMessages. rewrite list_elem_of_fmap.
  intros (item & -> & Hitem).
  apply list_elem_of_In in Hitem. apply filter_In in Hitem.
  destruct Hitem as [Hitem Hkeep].
  apply andb_prop in Hkeep. destruct Hkeep as [Hpush Htoken].
  destruct (token item) as [[|c s]|] eqn:Htok; try done.
  exists item, (String c s).
  split_and!; try done. apply list_elem_of_In. exact Hitem.
Qed.

Lemma pushMessages_none birthdays :
  (∀ item, item ∈ birthdays →
           pushNotifications item = false
           ∨ truthyString (token item) = false) →
  pushMessages birthdays = [].
Proof.
  intros Hnone. unfold pushMessages.
  induction birthdays as [|item rest IH]; [done|].
  cbn [List.filter].
  destruct (Hnone item) as [-> | Htok]; [left| |].
  - cbn [andb]. apply IH. intros i Hi. apply Hnone. by right.
  - rewrite Htok, andb_false_r. apply IH. intros i Hi. apply Hnone.
    by right.
Qed.

(** X14: what is pushed after a resolution goes to a device of a user
    of the data base whose profile has push notifications enabled, to a
    token that is not empty, about one of that user's friends whose
    birthday is within the cutoff; the text names the friend and the
    hours. *)
Theorem resolved_push_messages w db cutoffHours hours l m :
  mongo w = Connected db →
  (getApproachingBirthdays cutoffHours hours w).1 = Normal l →
  m ∈ pushMessages l →
  ∃ j d,
    j ∈ candidates db
    ∧ d ∈ deviceinfos db
    ∧ DeviceInfo.userId d = User._id (Rows.root j)
    ∧ UserProfile.pushNotifications (Rows.userProfile j) = true
    ∧ DeviceInfo.deviceToken d ≠ EmptyString
    ∧ Rows.hoursUntilBirthday (addBirthdayFields (now w) j) ≤ cutoffHours
    ∧ m = {| to := Some (DeviceInfo.deviceToken d);
             sound := "default";
             body := Friend.name (Rows.friends j) +:+ "'s birthday is "
                     +:+ pretty (Rows.hoursUntilBirthday
                                   (addBirthdayFields (now w) j))
                     +:+ " hours away!" |}.
Proof.
  intros Hdb Hl Hm.
  apply elem_of_pushMessages in Hm.
  destruct Hm as (t & deviceToken & Ht & Hpush & Htok & Hne & ->).
  destruct (proj1 (elem_of_getApproachingBirthdays w db cutoffHours hours t
                     Hdb)) as (j & dev & Hj & Hcut & Hrecent & Hdev & ->);
    [by exists l|].
  destruct dev as [d|]; [|done].
  cbn in Htok. injection Htok as <-. destruct Hdev as [Hd Hdu].
  exists j, d. by split_and!.
Qed.

(** X15: when no tuple has push notifications enabled together with a
    non-empty token, the dispatcher sends nothing and prints nothing;
    it still writes the empty array to the cache and registers the
    timer, and when the timer fires the reconciler neither polls nor
    prints. *)
Theorem dispatch_nothing_to_push expo birthdays w :
  (∀ item, item ∈ birthdays →
           pushNotifications item = false
           ∨ truthyString (token item) = false) →
  sendExpoNotifications expo birthdays w
  = (Normal {| tickets := []; sending := Settled |},
     {| now := now w; mongo := mongo w;
        ticketCache := <[pretty (now w) := "[]"]> (ticketCache w);
        console := console w;
        timers := timers w ++ [{| delay := 60000;
                                  timerIdentifier := pretty (now w) |}];
        requests := requests w |})
  ∧ (timers w = [] →
     dispatch expo birthdays w
     = (Normal {| tickets := []; sending := Settled |},
        {| now := now w; mongo := mongo w;
           ticketCache := <[pretty (now w) := "[]"]> (ticketCache w);
           console := console w;
           timers := [];
           requests := requests w |})).
Proof.
  intros Hnone. apply pushMessages_none in Hnone. split.
  - rewrite sendExpoNotifications_run, Hnone. cbn -[pretty].
    by rewrite app_nil_r.
  - intros Htimers.
    destruct (dispatch_run expo birthdays w)
      as (lines & polls & _ & Hquiet & ->).
    destruct (Hquiet Htimers) as [-> ->].
    rewrite Hnone. cbn -[pretty]. by rewrite !app_nil_r.
Qed.

(** ** The further theorems at the example installation *)

(** Swapping the first two characters of an accepted password. *)
Lemma validatePasswordPattern_permutation_witness :
  list_ascii_of_string "Passw0rd_" ≡ₚ list_ascii_of_string "aPssw0rd_"
  ∧ UserModel.validatePasswordPattern "Passw0rd_"
    = UserModel.validatePasswordPattern "aPssw0rd_".
Proof.
  assert (list_ascii_of_string "Passw0rd_"
          ≡ₚ list_ascii_of_string "aPssw0rd_") as Hswap
    by (simpl; apply perm_swap).
  split; [exact Hswap|].
  apply (validatePasswordPattern_permutation "Passw0rd_" "aPssw0rd_" Hswap).
Defined.

(** Ann's date of birth, stored with a time of day, is serialised as
    the day alone. *)
Lemma transform_dob_is_utc_day_witness :
  UserDemo.annJSON !! "dob"
    = Some (UserModel.VDate (daysFromCivil 1990 11 6 * msPerDay + 55800000))
  ∧ UserModel.transform UserDemo.annJSON !! "dob"
    = Some (UserModel.VString
              (isoDate (daysFromCivil 1990 11 6 * msPerDay + 55800000))).
Proof.
  assert (UserDemo.annJSON !! "dob"
          = Some (UserModel.VDate
                    (daysFromCivil 1990 11 6 * msPerDay + 55800000)))
    as Hdob by (vm_compute; reflexivity).
  split; [exact Hdob|].
  apply (transform_dob_is_utc_day UserDemo.annJSON _ Hdob).
  split; apply Z.leb_le; vm_compute; reflexivity.
Defined.

(** A date of birth changed to tomorrow is refused. *)
Lemma preSave_dob_not_in_future_witness :
  (UserModel.isNew UserDemo.late = true →
   ∃ db, mongo Demo.world = Connected db)
  ∧ (UserModel.preSave UserDemo.defaults UserDemo.hashString UserDemo.late
       Demo.world).1
    = Normal (UserDemo.late,
              UserModel.WithError
                (UserModel.newError "Date of birth cannot be in the future")).
Proof.
  assert (UserModel.isNew UserDemo.late = true →
          ∃ db, mongo Demo.world = Connected db) as Hdb
    by (intros _; exists Demo.db; reflexivity).
  split; [exact Hdb|].
  apply (preSave_dob_not_in_future UserDemo.defaults UserDemo.hashString
           UserDemo.late Demo.world Hdb).
  - vm_compute. reflexivity.
  - apply Z.ltb_lt. vm_compute. reflexivity.
Defined.

(** Ann's first save: the password matches the pattern and is replaced
    by its hash. *)
Lemma preSave_password_witness :
  (UserModel.preSave UserDemo.defaults UserDemo.hashString UserDemo.ann
     Demo.world).1
  = Normal (UserModel.setPasswordHash UserDemo.ann "hashed:Passw0rd_",
            UserModel.NoError)
  ∧ UserModel.validatePasswordPattern (UserModel.passwordHash UserDemo.ann)
    = true.
Proof.
  assert ((UserModel.preSave UserDemo.defaults UserDemo.hashString
             UserDemo.ann Demo.world).1
          = Normal (UserModel.setPasswordHash UserDemo.ann "hashed:Passw0rd_",
                    UserModel.NoError)) as Hsave
    by (vm_compute; reflexivity).
  split; [exact Hsave|].
  destruct (preSave_password UserDemo.defaults UserDemo.hashString
              UserDemo.ann Demo.world _ _ Hsave) as [Hhashed _].
  apply Hhashed; [reflexivity | vm_compute; reflexivity].
Defined.


(** A [null] after a ticket: the ticket before it is not polled
    either. *)
Lemma reconcile_malformed_batch_witness :
  ticketCache Scenario.nullBatch !! "1"
    = Some (JSON.stringify (JSON.JArray [Demo.okTicket "r1"; JSON.JNull]))
  ∧ handleExpoReceipts Demo.expo "1" Scenario.nullBatch
    = (Normal (),
       emit Scenario.nullBatch
         [console_error
            (TypeError ("Cannot read properties of null, reading "
                        +:+ "id"))] []).
Proof.
  assert (ticketCache Scenario.nullBatch !! "1"
          = Some (JSON.stringify
                    (JSON.JArray [Demo.okTicket "r1"; JSON.JNull])))
    as Hcached by (vm_compute; reflexivity).
  split; [exact Hcached|].
  destruct (reconcile_malformed_batch Demo.expo "1" Scenario.nullBatch _
              Hcached) as [Hnull _].
  apply (Hnull [Demo.okTicket "r1"; JSON.JNull]).
  - vm_compute. reflexivity.
  - right. left.
Defined.

(** Alice's tuple at the example installation. *)
Lemma resolved_tuple_sound_witness :
  mongo Demo.world = Connected Demo.db
  ∧ (getApproachingBirthdays 96 24 Demo.world).1
    = Normal [Scenario.aliceTuple]
  ∧ ∃ u p f,
      u ∈ users Demo.db ∧ p ∈ userprofiles Demo.db ∧ f ∈ friends Demo.db
      ∧ UserProfile.user p = User._id u
      ∧ Friend.user f = User._id u
      ∧ userId Scenario.aliceTuple = UserProfile.user p
      ∧ friendId Scenario.aliceTuple = Friend._id f.
Proof.
  assert ((getApproachingBirthdays 96 24 Demo.world).1
          = Normal [Scenario.aliceTuple]) as Hresult
    by (vm_compute; reflexivity).
  split; [reflexivity|]. split; [exact Hresult|].
  destruct (resolved_tuple_sound Demo.world Demo.db 96 24
              [Scenario.aliceTuple] Scenario.aliceTuple eq_refl Hresult
              (list_elem_of_here _ _))
    as (u & p & f & Hu & Hp & Hf & Hpu & Hfu & Hid & _ & Hfid & _).
  exists u, p, f. repeat split; assumption.
Defined.

(** Alice's pair passes the filters and the user has one device. *)
Lemma resolved_tuple_per_device_witness :
  mongo Demo.world = Connected Demo.db
  ∧ Demo.row Demo.alice ∈ candidates Demo.db
  ∧ Rows.hoursUntilBirthday
      (addBirthdayFields (now Demo.world) (Demo.row Demo.alice)) ≤ 96
  ∧ ∃ l, (getApproachingBirthdays 96 24 Demo.world).1 = Normal l
         ∧ ∀ d, d ∈ deviceinfos Demo.db →
                DeviceInfo.userId d = User._id (Rows.root (Demo.row Demo.alice)) →
                tuple (project (addBirthdayFields (now Demo.world)
                                  (Demo.row Demo.alice), Some d)) ∈ l.
Proof.
  assert (Rows.hoursUntilBirthday
            (addBirthdayFields (now Demo.world) (Demo.row Demo.alice)) ≤ 96)
    as Hcut by (apply Z.leb_le; vm_compute; reflexivity).
  split; [reflexivity|]. split; [exact Demo_alice_candidate|].
  split; [exact Hcut|].
  destruct (resolved_tuple_per_device Demo.world Demo.db 96 24
              (Demo.row Demo.alice) eq_refl Demo_alice_candidate Hcut)
    as (l & Hl & Hdevices & _).
  - intros n Hn Hu Hf. cbn [notifications Demo.db] in Hn.
    apply elem_of_cons in Hn. destruct Hn as [->|Hn];
      [apply Z.leb_le; vm_compute; reflexivity|].
    apply elem_of_cons in Hn. destruct Hn as [->|Hn]; [discriminate Hf|].
    by apply elem_of_nil in Hn.
  - exists l. split; [exact Hl | exact Hdevices].
Defined.

(** Alice's tuple is still there with a cutoff of 120 hours and a
    clearance of 12. *)
Lemma resolved_monotone_witness :
  mongo Demo.world = Connected Demo.db
  ∧ (getApproachingBirthdays 96 24 Demo.world).1
    = Normal [Scenario.aliceTuple]
  ∧ ∃ l', (getApproachingBirthdays 120 12 Demo.world).1 = Normal l'
          ∧ Scenario.aliceTuple ∈ l'.
Proof.
  assert ((getApproachingBirthdays 96 24 Demo.world).1
          = Normal [Scenario.aliceTuple]) as Hresult
    by (vm_compute; reflexivity).
  split; [reflexivity|]. split; [exact Hresult|].
  apply (resolved_monotone Demo.world Demo.db 96 120 24 12
           [Scenario.aliceTuple] Scenario.aliceTuple eq_refl);
    [lia | lia | exact Hresult | apply list_elem_of_here].
Defined.

(** The message about Alice goes to the user's device. *)
Lemma resolved_push_messages_witness :
  mongo Demo.world = Connected Demo.db
  ∧ (getApproachingBirthdays 96 24 Demo.world).1
    = Normal [Scenario.aliceTuple]
  ∧ ∃ j d,
      j ∈ candidates Demo.db
      ∧ d ∈ deviceinfos Demo.db
      ∧ DeviceInfo.userId d = User._id (Rows.root j)
      ∧ UserProfile.pushNotifications (Rows.userProfile j) = true
      ∧ DeviceInfo.deviceToken d = "tok1".
Proof.
  assert ((getApproachingBirthdays 96 24 Demo.world).1
          = Normal [Scenario.aliceTuple]) as Hresult
    by (vm_compute; reflexivity).
  split; [reflexivity|]. split; [exact Hresult|].
  destruct (resolved_push_messages Demo.world Demo.db 96 24
              [Scenario.aliceTuple]
              {| to := Some "tok1"; sound := "default";
                 body := "Alice's birthday is 96 hours away!" |}
              eq_refl Hresult (list_elem_of_here _ _))
    as (j & d & Hj & Hd & Hdu & Hpush & _ & _ & Hm).
  exists j, d. repeat split; try assumption.
  by injection Hm as <- _.
Defined.

(** A user without a device: nothing is sent, the cache entry is
    written all the same. *)
Lemma dispatch_nothing_to_push_witness :
  (∀ item, item ∈ [Demo.birthday "Alice" 96 None] →
           pushNotifications item = false
           ∨ truthyString (token item) = false)
  ∧ requests (dispatch Demo.expo [Demo.birthday "Alice" 96 None]
                Demo.world).2 = []
  ∧ ticketCache (dispatch Demo.expo [Demo.birthday "Alice" 96 None]
                   Demo.world).2 !! "1793574000000" = Some "[]".
Proof.
  assert (∀ item, item ∈ [Demo.birthday "Alice" 96 None] →
                  pushNotifications item = false
                  ∨ truthyString (token item) = false) as Hnone.
  { intros item Hitem. apply list_elem_of_singleton in Hitem.
    right. rewrite Hitem. reflexivity. }
  split; [exact Hnone|].
  destruct (dispatch_nothing_to_push Demo.expo
              [Demo.birthday "Alice" 96 None] Demo.world Hnone)
    as [_ Hrun].
  rewrite (Hrun eq_refl). split; [reflexivity | vm_compute; reflexivity].
Defined.
